(** * ApiCaller: the request/response pipeline of src/utils/ApiCaller.ts

    A shallow embedding of [addCancelable], [isOnLoginPage], [redirect],
    [truncateUrl], [cancelRequests], [send], [get] and [projectId], and of
    the callers [cancel], [delete], [recreateFullCopy] and
    [migrateReplica] of src/sources/MigrationSource.ts, followed by the
    properties the specification states about them and by further
    properties read off the code.

    Conventions of the embedding.
    - A JavaScript string is a [string]; every [ascii] stands for one code
      unit, so [String.length] is [.length] and [substring] is [.substr].
    - A JavaScript number that the code handles (an HTTP status, a time in
      milliseconds) is a [Z].
    - An untyped value ([any]: payloads, rejection values) is a [JsVal].
    - Module level state ([cancelables], the cache, [window.location]) is
      a [World] passed explicitly; calls to the collaborators (axios, the
      logger, the notification store, the navigation) are recorded, in
      order, as a list of [Event]s.
    - A promise is split where JavaScript splits it: [send_sync] is the
      part of [send] that runs before it returns, [settle] is the
      continuation that runs when the transport answers. *)

From Stdlib Require Import ZArith List Bool Ascii String Lia DecimalString.
Import ListNotations.
Open Scope string_scope.
Set Warnings "-register-all".

(** ** Strings *)

Module Str.

(** [s.indexOf(sub)]: the first position at which [sub] occurs, -1 when
    there is none. *)
Fixpoint indexOf_from (i : Z) (s sub : string) : Z :=
  if String.prefix sub s then i
  else match s with
       | EmptyString => (-1)%Z
       | String _ s' => indexOf_from (i + 1) s' sub
       end.

Definition indexOf (s sub : string) : Z := indexOf_from 0 s sub.

(** [s.substr(0, n)]. *)
Definition substr0 (n : nat) (s : string) : string := String.substring 0 n s.

(** If [s] starts with [p], what follows [p]. *)
Fixpoint strip_prefix (p s : string) : option string :=
  match p, s with
  | EmptyString, _ => Some s
  | String a p', String b s' =>
      if Ascii.eqb a b then strip_prefix p' s' else None
  | String _ _, EmptyString => None
  end.

(** Number to string, as a template literal prints an integer. *)
Definition of_Z (z : Z) : string := NilZero.string_of_int (Z.to_int z).

End Str.

(** ** Untyped values *)

Inductive JsVal : Type :=
| JUndefined
| JNull
| JBool (b : bool)
| JNum (n : Z)
| JStr (s : string)
| JArr (items : list JsVal)
| JObj (fields : list (string * JsVal)).

Module Js.

(** Truthiness, as [if (v)], [v && w] and [v || w] test it. *)
Definition truthy (v : JsVal) : bool :=
  match v with
  | JUndefined | JNull => false
  | JBool b => b
  | JNum n => negb (n =? 0)%Z
  | JStr s => negb (s =? "")
  | JArr _ | JObj _ => true
  end.

Fixpoint lookup (k : string) (fields : list (string * JsVal)) : JsVal :=
  match fields with
  | [] => JUndefined
  | (k', v) :: rest => if k' =? k then v else lookup k rest
  end.

(** [v.k] for the property names the code reads ([data], [error],
    [message], [description], [status], ...): only an object can hold
    them. *)
Definition get (v : JsVal) (k : string) : JsVal :=
  match v with
  | JObj fields => lookup k fields
  | _ => JUndefined
  end.

Definition keys (v : JsVal) : list string :=
  match v with
  | JObj fields => map fst fields
  | _ => []
  end.

Definition and (a b : JsVal) : JsVal := if truthy a then b else a.
Definition or (a b : JsVal) : JsVal := if truthy a then a else b.

(** [b] for an optional boolean option ([boolean | null | undefined]). *)
Definition flag (b : option bool) : bool :=
  match b with Some true => true | _ => false end.

End Js.

(** ** truncateUrl *)

Module Regex.

(** Line terminators, which [.] does not match: of the four that
    JavaScript knows, the line feed and the carriage return are the ones
    among the code units below 256. *)
Definition is_line_terminator (c : ascii) : bool :=
  Ascii.eqb c "010" || Ascii.eqb c "013".

(** [.*?\/] : as few characters as possible, none of them a line
    terminator, then a slash.  Returns what follows the slash. *)
Fixpoint lazy_dots_slash (s : string) : option string :=
  match s with
  | EmptyString => None
  | String c s' =>
      if Ascii.eqb c "/" then Some s'
      else if is_line_terminator c then None
      else lazy_dots_slash s'
  end.

(** [:\/\/.*?\/] *)
Definition colon_slashes_rest (s : string) : option string :=
  match Str.strip_prefix "://" s with
  | Some r => lazy_dots_slash r
  | None => None
  end.

(** [http(s)?:\/\/.*?\/] anchored at the start of [s]: the optional
    group is tried with the [s] first and without it on failure. *)
Definition match_here (s : string) : option string :=
  match Str.strip_prefix "http" s with
  | None => None
  | Some r =>
      match
        match Str.strip_prefix "s" r with
        | Some r1 => colon_slashes_rest r1
        | None => None
        end
      with
      | Some rest => Some rest
      | None => colon_slashes_rest r
      end
  end.

(** [s.replace(/http(s)?:\/\/.*?\//, '/')]: the leftmost match, and only
    that one, is replaced; without a match [s] is returned. *)
Fixpoint replace_scheme_host (s : string) : string :=
  match match_here s with
  | Some rest => String "/" rest
  | None =>
      match s with
      | EmptyString => EmptyString
      | String c s' => String c (replace_scheme_host s')
      end
  end.

End Regex.

Definition MAX_LENGTH : nat := 100.

(** The value of [relativePath] after line 65. *)
Definition relativePath (url : string) : string := Regex.replace_scheme_host url.

Definition truncateUrl (url : string) : string :=
  let relativePath := relativePath url in
  let relativePath := relativePath ++ relativePath in
  if (MAX_LENGTH <? String.length relativePath)%nat
  then Str.substr0 MAX_LENGTH relativePath ++ "..."
  else relativePath.

(** ** Data model *)

(** [Cancelable]: [cancel] is the closure the transport hands out; it is
    identified by the number the transport gave it. *)
Record Cancelable : Type := {
  requestId : string;
  cancel : nat;
}.

Inductive ResponseType : Type :=
| arraybuffer | blob | document | json | text | stream.

Record RequestOptions : Type := {
  url : string;
  method : option string;
  cancelId : option string;
  headers : option (list (string * string));
  data : JsVal;
  responseType : option ResponseType;
  quietError : option bool;
  skipLog : option bool;
  cache : option bool;
  cacheFor : option Z;
}.

Record AxiosRequestConfig : Type := {
  cfg_url : string;
  cfg_method : string;
  cfg_headers : list (string * string);
  cfg_data : JsVal;
  cfg_responseType : ResponseType;
  cfg_cancelToken : option nat;
}.

(** The [XMLHttpRequest] of a call, of which the code reads [responseURL]. *)
Record XHR : Type := {
  responseURL : string;
}.

Record AxiosResponse : Type := {
  res_data : JsVal;
  res_status : Z;
  res_statusText : string;
  res_headers : list (string * string);
  res_config : AxiosRequestConfig;
  res_request : XHR;
}.

(** What the transport rejects with.  The code tells the cases apart by
    the fields that are set and by the name of the constructor. *)
Record AxiosError : Type := {
  err_response : option AxiosResponse;
  err_request : option XHR;
  err_constructor_name : string;
}.

Inductive TransportOutcome : Type :=
| Fulfilled (response : AxiosResponse)
| Failed (error : AxiosError).

Inductive LogType : Type := REQUEST | RESPONSE.

Record LogEntry : Type := {
  log_url : string;
  log_method : string;
  log_type : LogType;
  log_requestStatus : option JsVal;
  log_description : option string;
  log_requestError : option AxiosError;
}.

(** The third argument of [notificationStore.alert]: the label of the
    action and what its callback returns. *)
Record AlertAction : Type := {
  act_label : string;
  act_request : AxiosRequestConfig;
  act_error : JsVal;
}.

Inductive Event : Type :=
| EvAxios (config : AxiosRequestConfig)
| EvLog (entry : LogEntry)
| EvConsole (text style : string) (payload : JsVal)
| EvAlert (message : JsVal) (level : string) (action : AlertAction)
| EvNavigate (href : string)
| EvCancel (handle : nat).

(** [window.location], as far as the code reads it. *)
Record Location : Type := {
  pathname : string;
  search : string;
}.

(** What the promise returned by [send] settles to.  [Unsettled] is the
    case in which the failure handler itself throws, so that neither
    [resolve] nor [reject] is reached. *)
Inductive Settlement : Type :=
| Resolved (value : JsVal)
| Rejected (value : JsVal)
| Unsettled.

(** The views of the transport's objects as untyped values. *)
Definition headers_to_js (h : list (string * string)) : JsVal :=
  JObj (map (fun kv => (fst kv, JStr (snd kv))) h).

Definition responseType_to_string (t : ResponseType) : string :=
  match t with
  | arraybuffer => "arraybuffer" | blob => "blob" | document => "document"
  | json => "json" | text => "text" | stream => "stream"
  end.

Definition config_to_js (c : AxiosRequestConfig) : JsVal :=
  JObj ([("url", JStr (cfg_url c)); ("method", JStr (cfg_method c));
         ("headers", headers_to_js (cfg_headers c)); ("data", cfg_data c);
         ("responseType", JStr (responseType_to_string (cfg_responseType c)))]
        ++ match cfg_cancelToken c with
           | Some h => [("cancelToken", JNum (Z.of_nat h))]
           | None => []
           end)%list.

Definition xhr_to_js (x : XHR) : JsVal :=
  JObj [("responseURL", JStr (responseURL x))].

Definition response_to_js (r : AxiosResponse) : JsVal :=
  JObj [("data", res_data r); ("status", JNum (res_status r));
        ("statusText", JStr (res_statusText r));
        ("headers", headers_to_js (res_headers r));
        ("config", config_to_js (res_config r));
        ("request", xhr_to_js (res_request r))].

(** ** The response cache *)

Module Cacher.

(** Modelled from the spec: Cacher.ts is not among the sources.  One
    cached response body: the URL of the request, the payload, the time
    at which it was stored. *)
Record CacheEntry : Type := {
  key : string;
  data : JsVal;
  storedAt : Z;
}.

(** Modelled from the spec: Cacher.ts is not among the sources.  The
    store holds at most one entry for a key; [find] looks it up. *)
Definition Store : Type := list CacheEntry.

Fixpoint find (k : string) (s : Store) : option CacheEntry :=
  match s with
  | [] => None
  | e :: rest => if key e =? k then Some e else find k rest
  end.

(** Modelled from the spec: Cacher.ts is not among the sources.  A read
    succeeds only if [now - storedAt <= maxAge]; without a [maxAge] any
    stored entry is fresh. *)
Definition fresh (now : Z) (maxAge : option Z) (e : CacheEntry) : bool :=
  match maxAge with
  | None => true
  | Some m => (now - storedAt e <=? m)%Z
  end.

(** Modelled from the spec: Cacher.ts is not among the sources.  The entry
    a read of [k] finds: stored and not stale. *)
Definition read (s : Store) (now : Z) (k : string) (maxAge : option Z)
  : option CacheEntry :=
  match find k s with
  | Some e => if fresh now maxAge e then Some e else None
  | None => None
  end.

(** Modelled from the spec: Cacher.ts is not among the sources.
    [load({ key, maxAge })] returns the stored payload for [key] if
    present and not stale, and null on a miss or a stale entry. *)
Definition load (s : Store) (now : Z) (k : string) (maxAge : option Z) : JsVal :=
  match read s now k maxAge with
  | Some e => data e
  | None => JNull
  end.

(** Modelled from the spec: Cacher.ts is not among the sources.
    [save({ key, data })] overwrites any entry for [key], with the current
    time. *)
Definition save (s : Store) (now : Z) (k : string) (d : JsVal) : Store :=
  {| key := k; data := d; storedAt := now |}
    :: filter (fun e => negb (key e =? k)) s.

End Cacher.

(** ** The state the module keeps and reads *)

Record World : Type := {
  cancelables : list Cancelable;
  (** the number the transport gives to the next cancel function *)
  nextCancel : nat;
  cacheStore : Cacher.Store;
  (** the clock, in milliseconds *)
  now : Z;
  location : Location;
}.

Definition set_cancelables (w : World) (l : list Cancelable) : World :=
  {| cancelables := l; nextCancel := nextCancel w;
     cacheStore := cacheStore w; now := now w; location := location w |}.

Definition set_nextCancel (w : World) (n : nat) : World :=
  {| cancelables := cancelables w; nextCancel := n;
     cacheStore := cacheStore w; now := now w; location := location w |}.

Definition set_cacheStore (w : World) (s : Cacher.Store) : World :=
  {| cancelables := cancelables w; nextCancel := nextCancel w;
     cacheStore := s; now := now w; location := location w |}.

(** ** The operations of ApiCaller.ts *)

(** [cancelables.pop()]: the list without its last element. *)
Definition pop {A : Type} (l : list A) : list A := removelast l.

(** [unshift] puts the new entry at index 0; [pop] removes the entry at
    the highest index. *)
Definition addCancelable (cancelable : Cancelable) (cancelables : list Cancelable)
  : list Cancelable :=
  let cancelables := cancelable :: cancelables in
  if (100 <? List.length cancelables)%nat then pop cancelables else cancelables.

Definition isOnLoginPage (loc : Location) : bool :=
  (Str.indexOf (pathname loc) "login" >? -1)%Z.

(** [redirect]: the value assigned to [window.location.href], if any. *)
Definition redirect (statusCode : Z) (loc : Location) : option string :=
  if negb (statusCode =? 401)%Z || isOnLoginPage loc then None
  else
    let currentPath :=
      if negb (pathname loc =? "/")
      then "?prev=" ++ pathname loc ++ search loc
      else "?prev=/" in
    Some ("/login" ++ currentPath).

Definition has_requestId (cancelRequestId : string) (r : Cancelable) : bool :=
  requestId r =? cancelRequestId.

(** [cancelRequests]: the calls of the cancel functions, in the order of
    [forEach], and the new buffer. *)
Definition cancelRequests (cancelRequestId : string) (w : World)
  : World * list Event :=
  let filteredCancelables := filter (has_requestId cancelRequestId) (cancelables w) in
  (set_cancelables w
     (filter (fun r => negb (has_requestId cancelRequestId r)) (cancelables w)),
   map (fun c => EvCancel (cancel c)) filteredCancelables).

(** What [send] has done when it returns: answered from the cache, or
    handed [axiosOptions] to the transport. *)
Inductive Dispatch : Type :=
| Immediate (response : JsVal)
| Pending (axiosOptions : AxiosRequestConfig).

Definition with_cancelToken (c : AxiosRequestConfig) (h : nat) : AxiosRequestConfig :=
  {| cfg_url := cfg_url c; cfg_method := cfg_method c;
     cfg_headers := cfg_headers c; cfg_data := cfg_data c;
     cfg_responseType := cfg_responseType c; cfg_cancelToken := Some h |}.

(** [x || d] for an optional string. *)
Definition string_or (x : option string) (d : string) : string :=
  match x with
  | Some s => if s =? "" then d else s
  | None => d
  end.

(** [if (options.cancelId)] *)
Definition truthy_string (x : option string) : option string :=
  match x with
  | Some s => if s =? "" then None else Some s
  | None => None
  end.

(** Lines 103 to 109. *)
Definition build_axiosOptions (options : RequestOptions) : AxiosRequestConfig :=
  {| cfg_url := url options;
     cfg_method := string_or (method options) "GET";
     cfg_headers := match headers options with Some h => h | None => [] end;
     cfg_data := Js.or (data options) JNull;
     cfg_responseType :=
       match responseType options with Some t => t | None => json end;
     cfg_cancelToken := None |}.

Definition log_entry (axiosOptions : AxiosRequestConfig) (type : LogType)
  (status : option JsVal) (description : option string)
  (error : option AxiosError) : LogEntry :=
  {| log_url := cfg_url axiosOptions;
     log_method := string_or (Some (cfg_method axiosOptions)) "GET";
     log_type := type;
     log_requestStatus := status;
     log_description := description;
     log_requestError := error |}.

(** Lines 95 and 96. *)
Definition cachedData (options : RequestOptions) (w : World) : JsVal :=
  if Js.flag (cache options)
  then Cacher.load (cacheStore w) (now w) (url options) (cacheFor options)
  else JNull.

(** [send], up to its [return]: lines 97 to 127.  [new CancelToken] calls
    its executor at once, so [cancel] is the transport's function when the
    cancelable is registered. *)
Definition send_sync (options : RequestOptions) (w : World)
  : World * list Event * Dispatch :=
  let cachedData := cachedData options w in
  if Js.truthy cachedData then
    (w, [], Immediate (JObj [("data", cachedData)]))
  else
    let axiosOptions := build_axiosOptions options in
    let '(axiosOptions, w) :=
      match truthy_string (cancelId options) with
      | Some id =>
          let c := nextCancel w in
          (with_cancelToken axiosOptions c,
           set_cancelables (set_nextCancel w (S c))
             (addCancelable {| requestId := id; cancel := c |} (cancelables w)))
      | None => (axiosOptions, w)
      end in
    (w,
     ((if negb (Js.flag (skipLog options))
       then [EvLog (log_entry axiosOptions REQUEST None None None)]
       else [])
        ++ [EvAxios axiosOptions])%list,
     Pending axiosOptions).

Definition connection_message (options : RequestOptions) : JsVal :=
  JStr ("Request failed, there might be a problem with the connection to the server. "
          ++ truncateUrl (url options)).

Definition view_details (axiosOptions : AxiosRequestConfig) (error : JsVal)
  : AlertAction :=
  {| act_label := "View details"; act_request := axiosOptions; act_error := error |}.

(** Lines 148 to 153: the message and the status shown for a response
    outside 2xx. *)
Definition server_message (response : AxiosResponse) : JsVal :=
  let data := res_data response in
  Js.or
    (if Js.truthy data
     then (if Js.truthy (Js.get data "error")
           then Js.get (Js.get data "error") "message"
           else Js.get data "error")
     else data)
    (if Js.truthy data then Js.get data "description" else data).

(** [error.response.statusText || error.response.status] inside a
    template literal. *)
Definition statusText_or_status (response : AxiosResponse) : string :=
  if res_statusText response =? "" then Str.of_Z (res_status response)
  else res_statusText response.

Definition server_alertMessage (options : RequestOptions) (response : AxiosResponse)
  : JsVal :=
  Js.or (server_message response)
    (JStr (statusText_or_status response ++ " " ++ truncateUrl (url options))).

Definition server_status (response : AxiosResponse) : JsVal :=
  if Js.truthy (Js.and (JNum (res_status response)) (JStr (res_statusText response)))
  then JStr (Str.of_Z (res_status response) ++ " - " ++ res_statusText response)
  else Js.or (JStr (res_statusText response)) (JNum (res_status response)).

(** The [then] handler: lines 127 to 140. *)
Definition on_fulfilled (options : RequestOptions) (axiosOptions : AxiosRequestConfig)
  (response : AxiosResponse) (w : World) : World * list Event * Settlement :=
  (if Js.flag (cache options)
   then set_cacheStore w
          (Cacher.save (cacheStore w) (now w) (url options) (res_data response))
   else w,
   if negb (Js.flag (skipLog options))
   then [EvConsole ("%cResponse " ++ cfg_url axiosOptions) "color: #0044CA"
           (res_data response);
         EvLog (log_entry axiosOptions RESPONSE (Some (JNum 200)) None None)]
   else [],
   Resolved (response_to_js response)).

(** The [catch] handler: lines 141 to 237. *)
Definition on_rejected (options : RequestOptions) (axiosOptions : AxiosRequestConfig)
  (error : AxiosError) (w : World) : World * list Event * Settlement :=
  match err_response error with
  | Some response =>
      let alerts :=
        if (negb (res_status response =? 401)%Z || negb (isOnLoginPage (location w)))
           && negb (Js.flag (quietError options))
        then [EvAlert (server_alertMessage options response) "error"
                (view_details axiosOptions
                   (JObj [("status", server_status response);
                          ("message", server_message response)]))]
        else [] in
      match err_request error with
      | None =>
          (* [error.request.responseURL] of undefined: a TypeError *)
          (w, alerts, Unsettled)
      | Some request =>
          let navigation :=
            if (Str.indexOf (responseURL request) "/proxy/" =? -1)%Z
               && (Str.indexOf (responseURL request) "/azure-login" =? -1)%Z
            then match redirect (res_status response) (location w) with
                 | Some href => [EvNavigate href]
                 | None => []
                 end
            else [] in
          (w,
           (alerts ++ navigation
              ++ [EvLog (log_entry axiosOptions RESPONSE
                           (Some (JNum (res_status response))) None (Some error))])%list,
           Rejected (response_to_js response))
      end
  | None =>
      match err_request error with
      | Some _ =>
          (w,
           ((if negb (isOnLoginPage (location w)) && negb (Js.flag (quietError options))
             then [EvAlert (connection_message options) "error"
                     (view_details axiosOptions
                        (JObj [("message",
                                JStr "Request was made but no response was received")]))]
             else [])
              ++ [EvLog (log_entry axiosOptions RESPONSE (Some (JNum 500))
                           (Some "No response") (Some error))])%list,
           Rejected (JObj []))
      | None =>
          let canceled := err_constructor_name error =? "Cancel" in
          if canceled then
            (w,
             [EvLog (log_entry axiosOptions RESPONSE (Some (JStr "canceled")) None None)],
             Rejected (JObj [("canceled", JBool canceled)]))
          else
            (w,
             [EvLog (log_entry axiosOptions RESPONSE (Some (JNum 500))
                       (Some "Something happened in setting up the request") None);
              EvAlert (connection_message options) "error"
                (view_details axiosOptions
                   (JObj [("message",
                           JStr "Something happened in setting up the request")]))],
             Rejected (JObj [("canceled", JBool canceled)]))
      end
  end.

(** The continuation of [send] when the transport answers. *)
Definition settle (options : RequestOptions) (axiosOptions : AxiosRequestConfig)
  (outcome : TransportOutcome) (w : World) : World * list Event * Settlement :=
  match outcome with
  | Fulfilled response => on_fulfilled options axiosOptions response w
  | Failed error => on_rejected options axiosOptions error w
  end.

(** [send] from the call to the settled promise, for a transport that
    answers [outcome] when no other code ran in between. *)
Definition send (options : RequestOptions) (outcome : TransportOutcome) (w : World)
  : World * list Event * Settlement :=
  match send_sync options w with
  | (w1, events, Immediate response) => (w1, events, Resolved response)
  | (w1, events, Pending axiosOptions) =>
      let '(w2, events2, result) := settle options axiosOptions outcome w1 in
      (w2, (events ++ events2)%list, result)
  end.

Definition url_only (u : string) : RequestOptions :=
  {| url := u; method := None; cancelId := None; headers := None;
     data := JUndefined; responseType := None; quietError := None;
     skipLog := None; cache := None; cacheFor := None |}.

(** [get(url)] is [send({ url })]. *)
Definition get (u : string) (outcome : TransportOutcome) (w : World)
  : World * list Event * Settlement :=
  send (url_only u) outcome w.

(** The four failure buckets, by the tests of the [catch] handler. *)
Inductive Bucket : Type := ServerError | NoResponse | Cancelled | SetupFailure.

Definition classify (error : AxiosError) : Bucket :=
  match err_response error, err_request error with
  | Some _, _ => ServerError
  | None, Some _ => NoResponse
  | None, None =>
      if err_constructor_name error =? "Cancel" then Cancelled else SetupFailure
  end.

(** What the transport rejects with after the cancel function of a call
    was invoked: an axios [Cancel], which has neither [response] nor
    [request]. *)
Definition Cancel : AxiosError :=
  {| err_response := None; err_request := None; err_constructor_name := "Cancel" |}.

(** Projections of a trace. *)
Definition is_alert (e : Event) : bool :=
  match e with EvAlert _ _ _ => true | _ => false end.
Definition is_axios (e : Event) : bool :=
  match e with EvAxios _ => true | _ => false end.
Definition is_navigate (e : Event) : bool :=
  match e with EvNavigate _ => true | _ => false end.

Definition alerts (events : list Event) : list Event := filter is_alert events.
Definition network_calls (events : list Event) : list Event := filter is_axios events.
Definition navigations (events : list Event) : list Event := filter is_navigate events.

Fixpoint logged (events : list Event) : list LogEntry :=
  match events with
  | [] => []
  | EvLog entry :: rest => entry :: logged rest
  | _ :: rest => logged rest
  end.

Fixpoint canceled_handles (events : list Event) : list nat :=
  match events with
  | [] => []
  | EvCancel h :: rest => h :: canceled_handles rest
  | _ :: rest => canceled_handles rest
  end.

(** ** Runs of the module

    The calls that reach the module during a page session, and the moves
    of its environment: the page goes elsewhere, time passes, the stored
    cache changes under the module. *)

Inductive Call : Type :=
| CallSend (options : RequestOptions)
| CallSettle (options : RequestOptions) (axiosOptions : AxiosRequestConfig)
    (outcome : TransportOutcome)
| CallCancelRequests (cancelRequestId : string)
| EnvLocation (loc : Location)
| EnvClock (t : Z)
| EnvStorage (store : Cacher.Store).

Definition step (c : Call) (w : World) : World * list Event :=
  match c with
  | CallSend options =>
      let '(w', events, _) := send_sync options w in (w', events)
  | CallSettle options axiosOptions outcome =>
      let '(w', events, _) := settle options axiosOptions outcome w in (w', events)
  | CallCancelRequests id => cancelRequests id w
  | EnvLocation loc =>
      ({| cancelables := cancelables w; nextCancel := nextCancel w;
          cacheStore := cacheStore w; now := now w; location := loc |}, [])
  | EnvClock t =>
      ({| cancelables := cancelables w; nextCancel := nextCancel w;
          cacheStore := cacheStore w; now := t; location := location w |}, [])
  | EnvStorage store => (set_cacheStore w store, [])
  end.

Fixpoint run (calls : list Call) (w : World) : World * list Event :=
  match calls with
  | [] => (w, [])
  | c :: rest =>
      let '(w1, events1) := step c w in
      let '(w2, events2) := run rest w1 in
      (w2, (events1 ++ events2)%list)
  end.

(** The module when it has just been loaded: [let cancelables = []]. *)
Definition boot (loc : Location) (t : Z) (store : Cacher.Store) : World :=
  {| cancelables := []; nextCancel := 0; cacheStore := store; now := t;
     location := loc |}.

(** Registering the cancelables of [cs] one after the other, the head of
    [cs] first. *)
Definition register_all (cs buffer : list Cancelable) : list Cancelable :=
  fold_left (fun b c => addCancelable c b) cs buffer.

(** A host name for the purposes of [truncateUrl]: no slash and no line
    terminator. *)
Fixpoint host_ok (host : string) : bool :=
  match host with
  | EmptyString => true
  | String c host' =>
      negb (Ascii.eqb c "/") && negb (Regex.is_line_terminator c) && host_ok host'
  end.

(** The URL of the specification's scenario, and one whose doubled path
    is longer than 100 characters. *)
Definition example_url : string := "https://host/api/migrations/abc".

Definition long_url : string :=
  "http://10.0.0.1:7667/v1/0123456789abcdef/replicas/0123456789abcdef/executions".

(** The worlds a page session can reach from the freshly loaded module. *)
Definition reachable (w : World) : Prop :=
  exists calls loc t store, w = fst (run calls (boot loc t store)).

(** Every handle in the buffer was handed out by the transport, once. *)
Definition handles_fresh (w : World) : Prop :=
  Forall (fun c => cancel c < nextCancel w) (cancelables w)
  /\ NoDup (map cancel (cancelables w)).

Definition Inv (w : World) : Prop :=
  List.length (cancelables w) <= 100 /\ handles_fresh w.

(** ** Inputs of the scenarios *)

Definition with_cancelId (u id : string) : RequestOptions :=
  {| url := u; method := None; cancelId := Some id; headers := None;
     data := JUndefined; responseType := None; quietError := None;
     skipLog := None; cache := None; cacheFor := None |}.

Definition home : Location := {| pathname := "/replicas"; search := "" |}.

Definition three_registered : World :=
  fst (run [CallSend (with_cancelId "/a" "grp1");
            CallSend (with_cancelId "/b" "grp2");
            CallSend (with_cancelId "/c" "grp1")] (boot home 0 [])).

Definition no_cancelable : Cancelable := {| requestId := ""; cancel := 0 |}.

Definition full_buffer : World :=
  fst (run (repeat (CallSend (with_cancelId "/a" "grp1")) 100) (boot home 0 [])).

Definition cached (u : string) : RequestOptions :=
  {| url := u; method := None; cancelId := Some "grp1"; headers := None;
     data := JUndefined; responseType := None; quietError := None;
     skipLog := None; cache := Some true; cacheFor := None |}.

Definition ok_response (d : JsVal) : AxiosResponse :=
  {| res_data := d; res_status := 200; res_statusText := "OK";
     res_headers := [("content-type", "application/json")];
     res_config := build_axiosOptions (url_only "/x");
     res_request := {| responseURL := "http://host/x" |} |}.

(** The world after [send({ url: '/x', cache: true, ... })] was answered
    by the transport with an empty body. *)
Definition after_empty_body : World :=
  fst (fst (send (cached "/x") (Fulfilled (ok_response (JStr ""))) (boot home 0 []))).

Definition endpoints : JsVal :=
  JObj [("endpoints", JArr [JObj [("id", JStr "e1"); ("type", JStr "openstack")]])].

Definition after_endpoints : World :=
  fst (fst (send (cached "/x") (Fulfilled (ok_response endpoints)) (boot home 0 []))).

Definition with_quietError (o : RequestOptions) (q : option bool) : RequestOptions :=
  {| url := url o; method := method o; cancelId := cancelId o;
     headers := headers o; data := data o; responseType := responseType o;
     quietError := q; skipLog := skipLog o; cache := cache o;
     cacheFor := cacheFor o |}.

Definition events_of (x : World * list Event * Settlement) : list Event := snd (fst x).
Definition result_of (x : World * list Event * Settlement) : Settlement := snd x.

Definition at_location (loc : Location) : World := boot loc 0 [].

(** The errors of the transport in the four buckets. *)
Definition server_error (status : Z) (statusText : string) (body : JsVal)
  (responseUrl : string) : AxiosError :=
  {| err_response :=
       Some {| res_data := body; res_status := status;
               res_statusText := statusText; res_headers := [];
               res_config := build_axiosOptions (url_only responseUrl);
               res_request := {| responseURL := responseUrl |} |};
     err_request := Some {| responseURL := responseUrl |};
     err_constructor_name := "Error" |}.

Definition unauthorized (responseUrl : string) : AxiosError :=
  server_error 401 "Unauthorized"
    (JObj [("error", JObj [("message", JStr "Unauthorized")])]) responseUrl.

Definition no_response : AxiosError :=
  {| err_response := None;
     err_request := Some {| responseURL := "" |};
     err_constructor_name := "Error" |}.

Definition setup_failure : AxiosError :=
  {| err_response := None; err_request := None; err_constructor_name := "TypeError" |}.

(** ** The rest of ApiCaller.ts, and its callers in MigrationSource.ts *)

Definition with_skipLog (o : RequestOptions) (s : option bool) : RequestOptions :=
  {| url := url o; method := method o; cancelId := cancelId o;
     headers := headers o; data := data o; responseType := responseType o;
     quietError := quietError o; skipLog := s; cache := cache o;
     cacheFor := cacheFor o |}.

(** The cookies of the page, as [js-cookie] reads them: [Cookie.get]
    is undefined for a name that is not set. *)
Module Cookie.

Definition Jar : Type := list (string * string).

Fixpoint get (name : string) (jar : Jar) : option string :=
  match jar with
  | [] => None
  | (n, v) :: rest => if n =? name then Some v else get name rest
  end.

End Cookie.

(** [get projectId()]: [cookie.get('projectId') || 'undefined']. *)
Definition projectId (jar : Cookie.Jar) : string :=
  string_or (Cookie.get "projectId" jar) "undefined".

Module JsObject.

(** [fields[k] = v]: an existing key keeps its place. *)
Fixpoint assign (k : string) (v : JsVal) (fields : list (string * JsVal))
  : list (string * JsVal) :=
  match fields with
  | [] => [(k, v)]
  | (k', v') :: rest =>
      if k' =? k then (k', v) :: rest else (k', v') :: assign k v rest
  end.

(** [obj[k] = v] for an object. *)
Definition set (obj : JsVal) (k : string) (v : JsVal) : JsVal :=
  match obj with
  | JObj fields => JObj (assign k v fields)
  | other => other
  end.

(** [obj[k] = v] with a computed key, on an object made by an object
    literal.  The key [__proto__] reaches the setter that the object
    inherits from [Object.prototype]: it changes the prototype at most
    and makes no own property, so nothing is added to what the object
    holds and sends.  Every other key becomes an own property. *)
Definition put (obj : JsVal) (k : string) (v : JsVal) : JsVal :=
  if k =? "__proto__" then obj else set obj k v.

(** [v == null] *)
Definition nullish (v : JsVal) : bool :=
  match v with
  | JUndefined | JNull => true
  | _ => false
  end.

End JsObject.

(** What the callers read outside the module: the base URL of the
    service ([configLoader.config.servicesUrls.coriolis], which is not
    among the sources) and the cookies. *)
Record Env : Type := {
  coriolis : string;
  cookies : Cookie.Jar;
}.

Module MigrationSource.

(** [`${configLoader.config.servicesUrls.coriolis}/${Api.projectId}/migrations`] *)
Definition migrations_url (env : Env) : string :=
  coriolis env ++ "/" ++ projectId (cookies env) ++ "/migrations".

Definition request (u : string) (m : string) (d : JsVal) : RequestOptions :=
  {| url := u; method := Some m; cancelId := None; headers := None;
     data := d; responseType := None; quietError := None;
     skipLog := None; cache := None; cacheFor := None |}.

(** [await Api.send(...)] followed by [return v]. *)
Definition await_return (r : Settlement) (v : JsVal) : Settlement :=
  match r with
  | Resolved _ => Resolved v
  | Rejected reason => Rejected reason
  | Unsettled => Unsettled
  end.

(** [cancel]: lines 193 to 204. *)
Definition cancel_options (env : Env) (migrationId : string) (force : option bool)
  : RequestOptions :=
  let data := JObj [("cancel", JNull)] in
  let data :=
    if Js.flag force
    then JsObject.set data "cancel" (JObj [("force", JBool true)])
    else data in
  request (migrations_url env ++ "/" ++ migrationId ++ "/actions") "POST" data.

Definition cancel (env : Env) (migrationId : string) (force : option bool)
  (outcome : TransportOutcome) (w : World) : World * list Event * Settlement :=
  let '(w', events, r) := send (cancel_options env migrationId force) outcome w in
  (w', events, await_return r (JStr migrationId)).

(** [delete]: lines 206 to 212. *)
Definition delete_options (env : Env) (migrationId : string) : RequestOptions :=
  request (migrations_url env ++ "/" ++ migrationId) "DELETE" JUndefined.

Definition delete (env : Env) (migrationId : string)
  (outcome : TransportOutcome) (w : World) : World * list Event * Settlement :=
  let '(w', events, r) := send (delete_options env migrationId) outcome w in
  (w', events, await_return r (JStr migrationId)).

(** [recreateFullCopy], lines 76 to 102: the payload built from a
    migration. *)
Definition recreateFullCopy_payload (migration : JsVal) : JsVal :=
  let m :=
    JObj [("origin_endpoint_id", Js.get migration "origin_endpoint_id");
          ("destination_endpoint_id", Js.get migration "destination_endpoint_id");
          ("destination_environment", Js.get migration "destination_environment");
          ("network_map", Js.get migration "network_map");
          ("instances", Js.get migration "instances");
          ("storage_mappings", Js.get migration "storage_mappings");
          ("notes", Js.get migration "notes")] in
  let m :=
    if negb (JsObject.nullish (Js.get migration "skip_os_morphing"))
    then JsObject.set m "skip_os_morphing" (Js.get migration "skip_os_morphing")
    else m in
  let m :=
    if Js.truthy (Js.get migration "source_environment")
    then JsObject.set m "source_environment" (Js.get migration "source_environment")
    else m in
  let m :=
    JsObject.set m "shutdown_instances"
      (JBool (Js.truthy (Js.get migration "shutdown_instances"))) in
  let m :=
    JsObject.set m "replication_count"
      (Js.or (Js.get migration "replication_count") (JNum 2)) in
  JObj [("migration", m)].

Definition recreateFullCopy_options (env : Env) (migration : JsVal) : RequestOptions :=
  request (migrations_url env) "POST" (recreateFullCopy_payload migration).

(** A [Field], of which [migrateReplica] reads the name, the value and
    the default. *)
Record Field : Type := {
  name : string;
  value : JsVal;
  default : JsVal;
}.

(** [o.value || o.default || false] *)
Definition option_value (o : Field) : JsVal :=
  Js.or (Js.or (value o) (default o)) (JBool false).

(** [migrateReplica], lines 214 to 228: the payload.  The scripts are
    turned into a value by [DefaultOptionsSchemaPlugin.getUserScripts],
    which is not among the sources and is taken as a parameter. *)
Definition migrateReplica_payload (getUserScripts : list JsVal -> JsVal)
  (replicaId : string) (options : list Field) (userScripts : list JsVal) : JsVal :=
  let migration :=
    fold_left (fun m o => JsObject.put m (name o) (option_value o)) options
      (JObj [("replica_id", JStr replicaId)]) in
  let migration :=
    if negb (List.length userScripts =? 0)%nat
    then JsObject.set migration "user_scripts" (getUserScripts userScripts)
    else migration in
  JObj [("migration", migration)].

Definition migrateReplica_options (getUserScripts : list JsVal -> JsVal)
  (env : Env) (replicaId : string) (options : list Field)
  (userScripts : list JsVal) : RequestOptions :=
  request (migrations_url env) "POST"
    (migrateReplica_payload getUserScripts replicaId options userScripts).

End MigrationSource.

(** Inputs of the scenarios for these. *)
Definition poll (u id : string) (c : option bool) (age : option Z) : RequestOptions :=
  {| url := u; method := None; cancelId := Some id; headers := None;
     data := JUndefined; responseType := None; quietError := None;
     skipLog := None; cache := c; cacheFor := age |}.

Definition site : Env :=
  {| coriolis := "http://host/coriolis"; cookies := [("projectId", "p1")] |}.

Definition finished_migration : JsVal :=
  JObj [("origin_endpoint_id", JStr "e1");
        ("destination_endpoint_id", JStr "e2");
        ("instances", JArr [JStr "vm1"]);
        ("skip_os_morphing", JBool false);
        ("shutdown_instances", JNull);
        ("replication_count", JNum 0)].

(** The [prev] query parameter of which the specification speaks, read
    the way a URL parser reads the query of a URL: the query starts after
    the first [?], its pairs are separated by [&], and a pair is a name,
    [=] and a value.  This follows the words of the specification, not
    the source, and serves to compare them with what [redirect] builds;
    the URLs it is applied to contain no escapes, so no decoding is
    involved. *)
Module UrlQuery.

Fixpoint after (c : ascii) (s : string) : option string :=
  match s with
  | EmptyString => None
  | String x s' => if Ascii.eqb x c then Some s' else after c s'
  end.

Fixpoint split (c : ascii) (s : string) : list string :=
  match s with
  | EmptyString => [EmptyString]
  | String x s' =>
      if Ascii.eqb x c then EmptyString :: split c s'
      else match split c s' with
           | piece :: pieces => String x piece :: pieces
           | [] => [String x EmptyString]
           end
  end.

Fixpoint value_in (name : string) (items : list string) : option string :=
  match items with
  | [] => None
  | item :: rest =>
      match Str.strip_prefix (name ++ "=") item with
      | Some v => Some v
      | None => value_in name rest
      end
  end.

Definition parameter (name href : string) : option string :=
  match after "?" href with
  | Some query => value_in name (split "&" query)
  | None => None
  end.

End UrlQuery.

(** * Properties *)

(** ** The embedding on sample inputs *)

Example truncateUrl_long_url :
  truncateUrl long_url
  = "/v1/0123456789abcdef/replicas/0123456789abcdef/executions/v1/0123456789abcdef/replicas/0123456789abc...".
Proof. reflexivity. Qed.

Example relativePath_first_match_only :
  relativePath "/proxy/http://10.0.0.1/v1/x" = "/proxy//v1/x"
  /\ relativePath "https://host" = "https://host".
Proof. split; reflexivity. Qed.

Example isOnLoginPage_samples :
  isOnLoginPage {| pathname := "/login"; search := "?prev=/" |} = true
  /\ isOnLoginPage {| pathname := "/replicas"; search := "" |} = false.
Proof. split; reflexivity. Qed.

Example server_alertMessage_samples :
  server_alertMessage (url_only example_url) (ok_response JNull)
  = JStr "OK /api/migrations/abc/api/migrations/abc"
  /\ alerts (events_of (settle (url_only example_url)
                          (build_axiosOptions (url_only example_url))
                          (Failed (server_error 500 "" (JStr "") example_url))
                          (at_location home)))
     = [EvAlert (JStr "500 /api/migrations/abc/api/migrations/abc") "error"
          (view_details (build_axiosOptions (url_only example_url))
             (JObj [("status", JNum 500); ("message", JStr "")]))]
  /\ alerts (events_of (settle (url_only example_url)
                          (build_axiosOptions (url_only example_url))
                          (Failed (unauthorized "http://host/proxy/x"))
                          (at_location home)))
     = [EvAlert (JStr "Unauthorized") "error"
          (view_details (build_axiosOptions (url_only example_url))
             (JObj [("status", JStr "401 - Unauthorized");
                    ("message", JStr "Unauthorized")]))].
Proof. repeat split. Qed.

Example get_logs_and_resolves :
  get "/x" (Fulfilled (ok_response endpoints)) (at_location home)
  = (at_location home,
     [EvLog (log_entry (build_axiosOptions (url_only "/x")) REQUEST None None None);
      EvAxios (build_axiosOptions (url_only "/x"));
      EvConsole "%cResponse /x" "color: #0044CA" endpoints;
      EvLog (log_entry (build_axiosOptions (url_only "/x")) RESPONSE
               (Some (JNum 200)) None None)],
     Resolved (response_to_js (ok_response endpoints))).
Proof. reflexivity. Qed.

(** ** Strings *)

Section StringFacts.

Lemma append_length (a b : string) :
  String.length (a ++ b) = String.length a + String.length b.
Proof. induction a as [|c a IH]; simpl; [reflexivity | now rewrite IH]. Qed.

Lemma substr0_length (n : nat) (s : string) :
  n <= String.length s -> String.length (Str.substr0 n s) = n.
Proof.
  unfold Str.substr0. revert s.
  induction n as [|n IH]; intros [|c s] H; simpl in *; try reflexivity; try lia.
  rewrite IH; [reflexivity | lia].
Qed.

Lemma indexOf_from_eq (i : Z) (s sub : string) :
  Str.indexOf_from i s sub =
  if String.prefix sub s then i
  else match s with
       | EmptyString => (-1)%Z
       | String _ s' => Str.indexOf_from (i + 1) s' sub
       end.
Proof. destruct s; reflexivity. Qed.

Lemma indexOf_from_lower (s sub : string) (i : Z) :
  (0 <= i)%Z -> Str.indexOf_from i s sub = (-1)%Z ->
  String.prefix sub s = false.
Proof.
  intros Hi H. rewrite indexOf_from_eq in H.
  destruct (String.prefix sub s); [lia | reflexivity].
Qed.

Lemma indexOf_from_absent (s sub : string) (i j : Z) :
  (0 <= i)%Z -> (0 <= j)%Z ->
  Str.indexOf_from i s sub = (-1)%Z -> Str.indexOf_from j s sub = (-1)%Z.
Proof.
  revert i j. induction s as [|c s IH]; intros i j Hi Hj H;
    rewrite indexOf_from_eq in H; rewrite indexOf_from_eq.
  - destruct (String.prefix sub ""); [lia | reflexivity].
  - destruct (String.prefix sub (String c s)); [lia |].
    apply (IH (i + 1)%Z); [lia | lia | exact H].
Qed.

Lemma strip_prefix_prefix (p s r : string) :
  Str.strip_prefix p s = Some r -> String.prefix p s = true.
Proof.
  revert s. induction p as [|a p IH]; intros [|b s] H; simpl in *;
    try reflexivity; try discriminate.
  destruct (Ascii.eqb a b) eqn:E; [|discriminate].
  apply Ascii.eqb_eq in E. subst b.
  destruct (ascii_dec a a) as [_|N]; [eauto | now elim N].
Qed.

Lemma prefix_iff (p s : string) :
  String.prefix p s = true <-> exists b, s = p ++ b.
Proof.
  revert s. induction p as [|a p IH]; intros s.
  - split; [intros _; now exists s | intros _; destruct s; reflexivity].
  - destruct s as [|c s]; cbn.
    + split; [discriminate | intros [b H]; discriminate H].
    + destruct (ascii_dec a c) as [-> | Hne].
      * rewrite IH. split; intros [b H]; exists b; [now rewrite H | now injection H].
      * split; [discriminate | intros [b H]; congruence].
Qed.

Lemma indexOf_from_range (i : Z) (s sub : string) :
  Str.indexOf_from i s sub = (-1)%Z \/ (i <= Str.indexOf_from i s sub)%Z.
Proof.
  revert i. induction s as [|c s IH]; intros i; rewrite indexOf_from_eq.
  - destruct (String.prefix sub ""); [right; lia | now left].
  - destruct (String.prefix sub (String c s)); [right; lia|].
    destruct (IH (i + 1)%Z); [now left | right; lia].
Qed.

Lemma indexOf_from_found (i : Z) (s sub : string) :
  (0 <= i)%Z ->
  (Str.indexOf_from i s sub <> (-1)%Z <-> exists a b, s = a ++ sub ++ b).
Proof.
  revert i. induction s as [|c s IH]; intros i Hi; rewrite indexOf_from_eq.
  - destruct (String.prefix sub "") eqn:E.
    + split; [intros _ | lia]. apply prefix_iff in E as [b E]. now exists "", b.
    + split; [congruence|]. intros [a [b H]]. exfalso.
      destruct a; [|discriminate H]. cbn in H.
      assert (String.prefix sub "" = true) by (apply prefix_iff; eauto).
      congruence.
  - destruct (String.prefix sub (String c s)) eqn:E.
    + split; [intros _ | lia]. apply prefix_iff in E as [b E]. now exists "", b.
    + rewrite (IH (i + 1)%Z) by lia. split.
      * intros [a [b H]]. exists (String c a), b. cbn. now rewrite H.
      * intros [a [b H]]. destruct a as [|c' a].
        -- exfalso. cbn in H.
           assert (String.prefix sub (String c s) = true)
             by (apply prefix_iff; eauto).
           congruence.
        -- cbn in H. injection H as _ H. eauto.
Qed.

End StringFacts.

(** ** truncateUrl *)

Section TruncateUrl.

Lemma replace_scheme_host_eq (s : string) :
  Regex.replace_scheme_host s =
  match Regex.match_here s with
  | Some rest => String "/" rest
  | None =>
      match s with
      | EmptyString => EmptyString
      | String c s' => String c (Regex.replace_scheme_host s')
      end
  end.
Proof. destruct s; reflexivity. Qed.

Lemma lazy_dots_slash_host (host rest : string) :
  host_ok host = true ->
  Regex.lazy_dots_slash (host ++ String "/" rest) = Some rest.
Proof.
  induction host as [|c host IH]; simpl; intros H; [reflexivity|].
  apply andb_prop in H as [H H3]. apply andb_prop in H as [H1 H2].
  destruct (Ascii.eqb c "/"); [discriminate|].
  destruct (Regex.is_line_terminator c); [discriminate|].
  auto.
Qed.

Lemma match_here_absolute (scheme host rest : string) :
  scheme = "http://" \/ scheme = "https://" ->
  host_ok host = true ->
  Regex.match_here (scheme ++ host ++ "/" ++ rest) = Some rest.
Proof.
  intros [-> | ->] H; cbn; unfold Regex.colon_slashes_rest; cbn;
    now rewrite lazy_dots_slash_host.
Qed.

Lemma match_here_needs_http (s rest : string) :
  Regex.match_here s = Some rest -> String.prefix "http" s = true.
Proof.
  unfold Regex.match_here. intros H.
  destruct (Str.strip_prefix "http" s) eqn:E; [|discriminate].
  eapply strip_prefix_prefix; eassumption.
Qed.

Lemma relativePath_without_http (u : string) :
  Str.indexOf u "http" = (-1)%Z -> relativePath u = u.
Proof.
  unfold relativePath, Str.indexOf.
  induction u as [|c u IH]; intros H; [reflexivity|].
  rewrite replace_scheme_host_eq.
  destruct (Regex.match_here (String c u)) eqn:E.
  - apply match_here_needs_http in E.
    apply indexOf_from_lower in H; [congruence | lia].
  - f_equal. apply IH. rewrite indexOf_from_eq in H.
    destruct (String.prefix "http" (String c u)); [discriminate|].
    eapply indexOf_from_absent; [| | exact H]; lia.
Qed.

Lemma truncateUrl_short (u : string) :
  String.length (relativePath u ++ relativePath u) <= 100 ->
  truncateUrl u = relativePath u ++ relativePath u.
Proof.
  intros H. unfold truncateUrl, MAX_LENGTH.
  destruct (Nat.ltb_spec 100 (String.length (relativePath u ++ relativePath u)));
    [lia | reflexivity].
Qed.

Lemma truncateUrl_long (u : string) :
  100 < String.length (relativePath u ++ relativePath u) ->
  truncateUrl u = Str.substr0 100 (relativePath u ++ relativePath u) ++ "...".
Proof.
  intros H. unfold truncateUrl, MAX_LENGTH.
  destruct (Nat.ltb_spec 100 (String.length (relativePath u ++ relativePath u)));
    [reflexivity | lia].
Qed.

End TruncateUrl.

(** C8, as the specification states it, fails on its own example: the
    path of [https://host/api/migrations/abc] has 19 characters, not 20,
    and the result 38, not 40.  Nor are scheme and host stripped from
    every URL: when no slash follows the host the URL is left whole. *)
Lemma truncateUrl_example_lengths_refuted :
  ~ (String.length (relativePath example_url) = 20
     /\ String.length (truncateUrl example_url) = 40)
  /\ relativePath "https://host" = "https://host"
  /\ truncateUrl "https://host" = "https://hosthttps://host".
Proof.
  split; [|split; reflexivity].
  intros [H _]. vm_compute in H. discriminate H.
Qed.

(** C8 (amended).  For an absolute URL [http(s)://host/rest] the helper
    first replaces scheme and host by a single slash, which leaves the
    path [/rest]; a URL in which [http] does not occur is left as it is.
    The resulting string is concatenated with itself, and the doubled
    string is returned as it is when it has at most 100 characters, and
    cut to its first 100 characters followed by [...] (103 characters in
    all) when it has more.  For [https://host/api/migrations/abc] the
    path [/api/migrations/abc] has length 19, the doubled string has
    length 38 and is returned unmodified, without an ellipsis. *)
Theorem truncateUrl_strips_doubles_truncates :
  (forall scheme host rest : string,
      scheme = "http://" \/ scheme = "https://" ->
      host_ok host = true ->
      relativePath (scheme ++ host ++ "/" ++ rest) = "/" ++ rest)
  /\ (forall u : string, Str.indexOf u "http" = (-1)%Z -> relativePath u = u)
  /\ (forall u : string,
         let doubled := relativePath u ++ relativePath u in
         (String.length doubled <= 100 -> truncateUrl u = doubled)
         /\ (100 < String.length doubled ->
             truncateUrl u = Str.substr0 100 doubled ++ "..."
             /\ String.length (truncateUrl u) = 103))
  /\ (relativePath example_url = "/api/migrations/abc"
      /\ String.length (relativePath example_url) = 19
      /\ truncateUrl example_url = "/api/migrations/abc/api/migrations/abc"
      /\ String.length (truncateUrl example_url) = 38).
Proof.
  split; [|split; [|split]].
  - intros scheme host rest Hs Hh. unfold relativePath.
    rewrite replace_scheme_host_eq, (match_here_absolute _ _ _ Hs Hh).
    reflexivity.
  - exact relativePath_without_http.
  - intros u doubled. split.
    + apply truncateUrl_short.
    + intros H. rewrite (truncateUrl_long u H). split; [reflexivity|].
      rewrite append_length, substr0_length; [reflexivity | fold doubled; lia].
  - repeat split.
Qed.

Lemma truncateUrl_strips_doubles_truncates_witness :
  relativePath ("https://" ++ "host" ++ "/" ++ "api/migrations/abc")
  = "/" ++ "api/migrations/abc"
  /\ relativePath "/api/migrations/abc" = "/api/migrations/abc"
  /\ truncateUrl example_url = relativePath example_url ++ relativePath example_url
  /\ String.length (truncateUrl long_url) = 103.
Proof.
  destruct truncateUrl_strips_doubles_truncates as [Habs [Hrel [Hcut _]]].
  split; [|split; [|split]].
  - apply Habs; [right; reflexivity | reflexivity].
  - apply Hrel. reflexivity.
  - apply (proj1 (Hcut example_url)). vm_compute. lia.
  - apply (proj2 (Hcut long_url)). vm_compute. lia.
Defined.

(** ** The cancelable buffer *)

Section Buffer.

Lemma addCancelable_within (c : Cancelable) (l : list Cancelable) :
  List.length l <= 100 -> addCancelable c l = firstn 100 (c :: l).
Proof.
  intros H. unfold addCancelable, pop.
  destruct (Nat.ltb_spec 100 (List.length (c :: l))) as [Hlt | Hle].
  - rewrite removelast_firstn_len. simpl List.length in *.
    replace (Nat.pred (S (List.length l))) with 100 by lia. reflexivity.
  - symmetry. apply firstn_all2. exact Hle.
Qed.

Lemma addCancelable_unshift_pop (c : Cancelable) (l : list Cancelable) :
  addCancelable c l
  = c :: (if (100 <=? List.length l)%nat then removelast l else l).
Proof.
  unfold addCancelable, pop.
  change (List.length (c :: l)) with (S (List.length l)).
  destruct (Nat.ltb_spec 100 (S (List.length l)));
    destruct (Nat.leb_spec 100 (List.length l)); try lia; [|reflexivity].
  destruct l as [|x l]; [simpl in *; lia | reflexivity].
Qed.

Lemma addCancelable_length (c : Cancelable) (l : list Cancelable) :
  List.length l <= 100 -> List.length (addCancelable c l) <= 100.
Proof.
  intros H. rewrite addCancelable_within by exact H.
  rewrite length_firstn. lia.
Qed.

Lemma firstn_app_firstn {A : Type} (n m : nat) (a b : list A) :
  n <= m -> firstn n (a ++ firstn m b) = firstn n (a ++ b).
Proof.
  revert n. induction a as [|x a IH]; intros n H; cbn [app].
  - rewrite firstn_firstn. now rewrite Nat.min_l.
  - destruct n as [|n]; [reflexivity|]. cbn [firstn]. f_equal. apply IH. lia.
Qed.

Lemma register_all_firstn (cs b : list Cancelable) :
  List.length b <= 100 -> register_all cs b = firstn 100 (rev cs ++ b).
Proof.
  unfold register_all.
  revert b. induction cs as [|c cs IH]; intros b H.
  - symmetry. apply firstn_all2. exact H.
  - cbn [fold_left rev]. rewrite IH by now apply addCancelable_length.
    rewrite addCancelable_within by exact H.
    rewrite firstn_app_firstn by lia.
    now rewrite <- app_assoc.
Qed.

End Buffer.

(** ** What each call does to the buffer *)

Section Invariant.

Lemma send_sync_hit (o : RequestOptions) (w : World) :
  Js.truthy (cachedData o w) = true ->
  send_sync o w = (w, [], Immediate (JObj [("data", cachedData o w)])).
Proof. intros H. unfold send_sync. now rewrite H. Qed.

Lemma send_sync_miss_registered (o : RequestOptions) (w : World) (id : string) :
  Js.truthy (cachedData o w) = false ->
  truthy_string (cancelId o) = Some id ->
  let c := nextCancel w in
  let axiosOptions := with_cancelToken (build_axiosOptions o) c in
  send_sync o w =
  (set_cancelables (set_nextCancel w (S c))
     (addCancelable {| requestId := id; cancel := c |} (cancelables w)),
   ((if negb (Js.flag (skipLog o))
     then [EvLog (log_entry axiosOptions REQUEST None None None)]
     else []) ++ [EvAxios axiosOptions])%list,
   Pending axiosOptions).
Proof. intros H Hid. unfold send_sync. now rewrite H, Hid. Qed.

Lemma send_sync_miss_plain (o : RequestOptions) (w : World) :
  Js.truthy (cachedData o w) = false ->
  truthy_string (cancelId o) = None ->
  let axiosOptions := build_axiosOptions o in
  send_sync o w =
  (w,
   ((if negb (Js.flag (skipLog o))
     then [EvLog (log_entry axiosOptions REQUEST None None None)]
     else []) ++ [EvAxios axiosOptions])%list,
   Pending axiosOptions).
Proof. intros H Hid. unfold send_sync. now rewrite H, Hid. Qed.

Lemma send_sync_buffer (o : RequestOptions) (w : World) :
  let w' := fst (fst (send_sync o w)) in
  (cancelables w' = cancelables w /\ nextCancel w' = nextCancel w)
  \/ (exists id,
         cancelables w'
         = addCancelable {| requestId := id; cancel := nextCancel w |} (cancelables w)
         /\ nextCancel w' = S (nextCancel w)).
Proof.
  destruct (Js.truthy (cachedData o w)) eqn:H.
  - rewrite send_sync_hit by exact H. left. split; reflexivity.
  - destruct (truthy_string (cancelId o)) as [id|] eqn:Hid.
    + rewrite (send_sync_miss_registered _ _ _ H Hid). right. exists id.
      split; reflexivity.
    + rewrite (send_sync_miss_plain _ _ H Hid). left. split; reflexivity.
Qed.

Lemma settle_buffer (o : RequestOptions) (cfg : AxiosRequestConfig)
  (outcome : TransportOutcome) (w : World) :
  let w' := fst (fst (settle o cfg outcome w)) in
  cancelables w' = cancelables w /\ nextCancel w' = nextCancel w.
Proof.
  destruct outcome as [r | e]; cbn [settle].
  - unfold on_fulfilled. destruct (Js.flag (cache o)); split; reflexivity.
  - unfold on_rejected.
    destruct (err_response e), (err_request e);
      try destruct (err_constructor_name e =? "Cancel"); split; reflexivity.
Qed.

Lemma filter_length_le {A : Type} (f : A -> bool) (l : list A) :
  List.length (filter f l) <= List.length l.
Proof. induction l as [|x l IH]; simpl; [lia | destruct (f x); simpl; lia]. Qed.

Lemma In_map_filter {A B : Type} (g : A -> B) (f : A -> bool) (l : list A) (y : B) :
  In y (map g (filter f l)) -> In y (map g l).
Proof.
  rewrite !in_map_iff. intros [x [E H]]. apply filter_In in H as [H _]. eauto.
Qed.

Lemma NoDup_map_filter {A B : Type} (g : A -> B) (f : A -> bool) (l : list A) :
  NoDup (map g l) -> NoDup (map g (filter f l)).
Proof.
  induction l as [|x l IH]; simpl; intros H; [constructor|].
  inversion H as [|? ? Hn Hd]; subst.
  destruct (f x); simpl; auto.
  constructor; auto. intros Hin. apply Hn. eapply In_map_filter; eassumption.
Qed.

Lemma In_firstn {A : Type} (n : nat) (l : list A) (x : A) :
  In x (firstn n l) -> In x l.
Proof.
  intros H. rewrite <- (firstn_skipn n l). apply in_or_app. now left.
Qed.

Lemma NoDup_firstn {A : Type} (n : nat) (l : list A) :
  NoDup l -> NoDup (firstn n l).
Proof.
  intros H. rewrite <- (firstn_skipn n l) in H.
  eapply NoDup_app_remove_r; eassumption.
Qed.

Lemma addCancelable_fresh (id : string) (w : World) :
  Inv w ->
  Inv (set_cancelables (set_nextCancel w (S (nextCancel w)))
         (addCancelable {| requestId := id; cancel := nextCancel w |} (cancelables w))).
Proof.
  intros [Hlen [Hlt Hnd]]. unfold Inv, handles_fresh.
  cbn [cancelables nextCancel set_cancelables set_nextCancel].
  split; [now apply addCancelable_length|].
  rewrite addCancelable_within by exact Hlen.
  assert (Hall : Forall (fun c => cancel c < S (nextCancel w))
                   ({| requestId := id; cancel := nextCancel w |} :: cancelables w)).
  { constructor; [cbn; lia|].
    eapply Forall_impl; [|exact Hlt]. cbn. intros; lia. }
  split.
  - rewrite Forall_forall in *. intros c Hc. apply Hall.
    eapply In_firstn; eassumption.
  - rewrite <- firstn_map. apply NoDup_firstn. cbn [map cancel].
    constructor; [|exact Hnd].
    rewrite in_map_iff. intros [c [E Hc]].
    rewrite Forall_forall in Hlt. specialize (Hlt c Hc). lia.
Qed.

Lemma step_Inv (c : Call) (w : World) : Inv w -> Inv (fst (step c w)).
Proof.
  intros HI. destruct c as [o | o cfg outcome | id | loc | t | store]; cbn [step].
  - pose proof (send_sync_buffer o w) as H.
    destruct (Js.truthy (cachedData o w)) eqn:Hc.
    + rewrite send_sync_hit by exact Hc. exact HI.
    + destruct (truthy_string (cancelId o)) as [id|] eqn:Hid.
      * rewrite (send_sync_miss_registered _ _ _ Hc Hid). cbn [fst].
        now apply addCancelable_fresh.
      * rewrite (send_sync_miss_plain _ _ Hc Hid). exact HI.
  - pose proof (settle_buffer o cfg outcome w) as [H1 H2].
    destruct (settle o cfg outcome w) as [[w' ev] r]. cbn [fst] in *.
    unfold Inv, handles_fresh. rewrite H1, H2. exact HI.
  - destruct HI as [Hlen [Hlt Hnd]]. unfold cancelRequests, Inv, handles_fresh.
    cbn [fst cancelables nextCancel set_cancelables].
    split; [|split].
    + etransitivity; [apply filter_length_le | exact Hlen].
    + rewrite Forall_forall in *. intros c Hc. apply Hlt.
      apply filter_In in Hc. tauto.
    + now apply NoDup_map_filter.
  - exact HI.
  - exact HI.
  - exact HI.
Qed.

Lemma run_Inv (calls : list Call) (w : World) : Inv w -> Inv (fst (run calls w)).
Proof.
  revert w. induction calls as [|c calls IH]; intros w HI; cbn [run]; [exact HI|].
  pose proof (step_Inv c w HI) as H1.
  destruct (step c w) as [w1 ev1]. cbn [fst] in H1.
  specialize (IH w1 H1). destruct (run calls w1) as [w2 ev2]. exact IH.
Qed.

Lemma boot_Inv (loc : Location) (t : Z) (store : Cacher.Store) :
  Inv (boot loc t store).
Proof.
  unfold Inv, handles_fresh, boot. cbn. repeat split; try lia; constructor.
Qed.

Lemma reachable_Inv (w : World) : reachable w -> Inv w.
Proof.
  intros [calls [loc [t [store ->]]]]. apply run_Inv, boot_Inv.
Qed.

End Invariant.

(** ** C2: the buffer is a bounded FIFO *)

(** C2.  In every world the module can reach the buffer holds at most 100
    entries.  A registration puts the new cancelable at the newest end
    (index 0) and, when the buffer already holds 100 entries, drops the
    one entry at the oldest end (the last index) and no other.
    Registering any sequence of cancelables into the empty buffer leaves
    the 100 most recently registered, newest first; in particular, of 101
    registrations exactly the 100 most recent remain. *)
Theorem cancelables_bounded_fifo :
  (forall calls loc t store,
      List.length (cancelables (fst (run calls (boot loc t store)))) <= 100)
  /\ (forall c l,
         addCancelable c l
         = c :: (if (100 <=? List.length l)%nat then removelast l else l))
  /\ (forall c l,
         List.length l <= 100 -> List.length (addCancelable c l) <= 100)
  /\ (forall cs, register_all cs [] = firstn 100 (rev cs))
  /\ (forall oldest cs,
         List.length cs = 100 -> register_all (oldest :: cs) [] = rev cs).
Proof.
  split; [|split; [|split; [|split]]].
  - intros calls loc t store. apply run_Inv, boot_Inv.
  - apply addCancelable_unshift_pop.
  - apply addCancelable_length.
  - intros cs. rewrite register_all_firstn by (cbn; lia). now rewrite app_nil_r.
  - intros oldest cs H. rewrite register_all_firstn by (cbn; lia).
    rewrite app_nil_r. cbn [rev]. rewrite firstn_app, length_rev, H.
    rewrite firstn_all2 by (rewrite length_rev; lia).
    rewrite Nat.sub_diag. cbn [firstn]. apply app_nil_r.
Qed.

Lemma cancelables_bounded_fifo_witness :
  let entry i := {| requestId := "poll"; cancel := i |} in
  List.length (addCancelable (entry 0) []) <= 100
  /\ register_all (entry 0 :: map entry (seq 1 100)) []
     = rev (map entry (seq 1 100)).
Proof.
  intros entry.
  destruct cancelables_bounded_fifo as [_ [_ [Hlen [_ H101]]]].
  split.
  - apply Hlen. cbn. lia.
  - apply H101. reflexivity.
Defined.

(** ** C3: cancelRequests *)

Section CancelRequests.

Lemma canceled_handles_map (l : list Cancelable) :
  canceled_handles (map (fun c => EvCancel (cancel c)) l) = map cancel l.
Proof. induction l as [|c l IH]; cbn; [reflexivity | now rewrite IH]. Qed.

Lemma filter_has_after_removal (tag : string) (l : list Cancelable) :
  filter (has_requestId tag)
    (filter (fun r => negb (has_requestId tag r)) l) = [].
Proof.
  induction l as [|c l IH]; cbn; [reflexivity|].
  destruct (has_requestId tag c) eqn:E; cbn; [exact IH|]. now rewrite E.
Qed.

Lemma filter_others_idempotent (tag : string) (l : list Cancelable) :
  filter (fun r => negb (has_requestId tag r))
    (filter (fun r => negb (has_requestId tag r)) l)
  = filter (fun r => negb (has_requestId tag r)) l.
Proof.
  induction l as [|c l IH]; cbn; [reflexivity|].
  destruct (has_requestId tag c) eqn:E; cbn; [exact IH|].
  rewrite E. cbn. now rewrite IH.
Qed.

Lemma has_requestId_true (tag : string) (c : Cancelable) :
  has_requestId tag c = true <-> requestId c = tag.
Proof. unfold has_requestId. apply String.eqb_eq. Qed.

Lemma has_requestId_false (tag : string) (c : Cancelable) :
  has_requestId tag c = false <-> requestId c <> tag.
Proof. unfold has_requestId. apply String.eqb_neq. Qed.

Lemma NoDup_map_In_eq {A B : Type} (g : A -> B) (l : list A) (x y : A) :
  NoDup (map g l) -> In x l -> In y l -> g x = g y -> x = y.
Proof.
  induction l as [|a l IH]; cbn; intros Hnd Hx Hy E; [contradiction|].
  inversion Hnd as [|? ? Hn Hd]; subst.
  destruct Hx as [-> | Hx], Hy as [-> | Hy]; auto.
  - elim Hn. rewrite E. now apply in_map.
  - elim Hn. rewrite <- E. now apply in_map.
Qed.

End CancelRequests.

(** C3.  In a world the module can reach, [cancelRequests(tag)] calls
    nothing but cancel functions, one call for each entry registered
    under [tag]: the cancel function of every such entry is invoked
    exactly once, and that of no entry with another tag.  The new buffer
    is the old one without the entries of [tag], the others in their
    order; nothing else of the state changes.  A second call with the
    same tag right after it invokes no function and changes nothing. *)
Theorem cancelRequests_cancels_group_once (w : World) (tag : string) :
  reachable w ->
  let w1 := fst (cancelRequests tag w) in
  let events := snd (cancelRequests tag w) in
  events = map (fun c => EvCancel (cancel c))
             (filter (has_requestId tag) (cancelables w))
  /\ (forall c, In c (cancelables w) -> requestId c = tag ->
                count_occ Nat.eq_dec (canceled_handles events) (cancel c) = 1)
  /\ (forall c, In c (cancelables w) -> requestId c <> tag ->
                ~ In (cancel c) (canceled_handles events))
  /\ cancelables w1
     = filter (fun r => negb (has_requestId tag r)) (cancelables w)
  /\ (forall c, In c (cancelables w1)
                <-> In c (cancelables w) /\ requestId c <> tag)
  /\ w1 = set_cancelables w (cancelables w1)
  /\ cancelRequests tag w1 = (w1, []).
Proof.
  intros Hr w1 events.
  destruct (reachable_Inv w Hr) as [_ [_ Hnd]].
  assert (Hev : canceled_handles events
                = map cancel (filter (has_requestId tag) (cancelables w))).
  { unfold events, cancelRequests. cbn [snd]. apply canceled_handles_map. }
  split; [reflexivity|].
  split; [|split; [|split; [reflexivity|split; [|split; [reflexivity|]]]]].
  - intros c Hin Htag. rewrite Hev.
    apply NoDup_count_occ'; [now apply NoDup_map_filter|].
    apply in_map, filter_In. split; [exact Hin | now apply has_requestId_true].
  - intros c Hin Htag. rewrite Hev, in_map_iff. intros [c' [E Hc']].
    apply filter_In in Hc' as [Hin' Htag'].
    apply has_requestId_true in Htag'.
    assert (c' = c) by (eapply NoDup_map_In_eq; eassumption).
    congruence.
  - intros c. unfold w1, cancelRequests. cbn [fst cancelables set_cancelables].
    rewrite filter_In, negb_true_iff, has_requestId_false. tauto.
  - unfold w1, cancelRequests.
    cbn [fst cancelables set_cancelables nextCancel cacheStore now location].
    rewrite filter_has_after_removal, filter_others_idempotent. reflexivity.
Qed.

Lemma cancelRequests_cancels_group_once_witness :
  snd (cancelRequests "grp1" three_registered) = [EvCancel 2; EvCancel 0]
  /\ cancelables (fst (cancelRequests "grp1" three_registered))
     = [{| requestId := "grp2"; cancel := 1 |}]
  /\ cancelRequests "grp1" (fst (cancelRequests "grp1" three_registered))
     = (fst (cancelRequests "grp1" three_registered), []).
Proof.
  assert (Hr : reachable three_registered).
  { exists [CallSend (with_cancelId "/a" "grp1");
            CallSend (with_cancelId "/b" "grp2");
            CallSend (with_cancelId "/c" "grp1")], home, 0%Z, [].
    reflexivity. }
  destruct (cancelRequests_cancels_group_once three_registered "grp1" Hr)
    as [Hev [_ [_ [Hbuf [_ [_ Hagain]]]]]].
  split; [exact Hev | split; [exact Hbuf | exact Hagain]].
Defined.

(** ** C10: eviction *)

Section Eviction.

Lemma evicted_handle_gone (w : World) (c : Cancelable) :
  Inv w -> cancelables w <> [] -> cancel c = nextCancel w ->
  ~ In (cancel (last (cancelables w) no_cancelable))
      (map cancel (c :: removelast (cancelables w))).
Proof.
  intros [_ [Hlt Hnd]] Hne Hc.
  pose proof (app_removelast_last no_cancelable Hne) as Hsplit.
  set (e := last (cancelables w) no_cancelable) in *.
  cbn [map]. intros [E | Hin].
  - rewrite Forall_forall in Hlt.
    assert (He : In e (cancelables w)).
    { rewrite Hsplit. apply in_or_app. right. now left. }
    specialize (Hlt e He). lia.
  - rewrite Hsplit, map_app in Hnd. cbn [map] in Hnd.
    apply NoDup_remove_2 in Hnd. apply Hnd. rewrite app_nil_r. exact Hin.
Qed.

End Eviction.

(** C10.  Let the buffer hold 100 entries when [send] registers a new
    cancelable (a call with a [cancelId] that is not answered from the
    cache).  Then [send] invokes no cancel function; the entry at the
    oldest end leaves the buffer and the new one enters at the newest
    end; and afterwards no call of [cancelRequests], whatever the tag and
    in particular with the tag of the evicted entry, invokes the cancel
    function of the evicted entry. *)
Theorem eviction_does_not_cancel (w : World) (o : RequestOptions) (id : string) :
  reachable w ->
  List.length (cancelables w) = 100 ->
  Js.truthy (cachedData o w) = false ->
  truthy_string (cancelId o) = Some id ->
  let evicted := last (cancelables w) no_cancelable in
  let w1 := fst (fst (send_sync o w)) in
  let events := snd (fst (send_sync o w)) in
  canceled_handles events = []
  /\ cancelables w = (removelast (cancelables w) ++ [evicted])%list
  /\ cancelables w1
     = {| requestId := id; cancel := nextCancel w |} :: removelast (cancelables w)
  /\ ~ In evicted (cancelables w1)
  /\ (forall tag,
         ~ In (cancel evicted) (canceled_handles (snd (cancelRequests tag w1)))).
Proof.
  intros Hr Hlen Hmiss Hid evicted w1 events.
  pose proof (reachable_Inv w Hr) as HI.
  assert (Hne : cancelables w <> []).
  { intros E. rewrite E in Hlen. discriminate Hlen. }
  assert (Hbuf : cancelables w1
                 = {| requestId := id; cancel := nextCancel w |}
                     :: removelast (cancelables w)).
  { unfold w1. rewrite (send_sync_miss_registered _ _ _ Hmiss Hid).
    cbn [fst cancelables set_cancelables].
    rewrite addCancelable_unshift_pop, Hlen. reflexivity. }
  assert (Hgone : ~ In (cancel evicted) (map cancel (cancelables w1))).
  { rewrite Hbuf. now apply evicted_handle_gone. }
  split; [|split; [|split; [|split]]].
  - unfold events. rewrite (send_sync_miss_registered _ _ _ Hmiss Hid).
    cbn [fst snd]. destruct (negb (Js.flag (skipLog o))); reflexivity.
  - now apply app_removelast_last.
  - exact Hbuf.
  - intros Hin. apply Hgone. now apply in_map.
  - intros tag Hin. apply Hgone. unfold cancelRequests in Hin. cbn [snd] in Hin.
    rewrite canceled_handles_map in Hin. eapply In_map_filter; eassumption.
Qed.

Lemma eviction_does_not_cancel_witness :
  canceled_handles (snd (fst (send_sync (with_cancelId "/b" "grp2") full_buffer))) = []
  /\ ~ In 0 (canceled_handles
               (snd (cancelRequests "grp1"
                       (fst (fst (send_sync (with_cancelId "/b" "grp2") full_buffer)))))).
Proof.
  assert (Hr : reachable full_buffer).
  { exists (repeat (CallSend (with_cancelId "/a" "grp1")) 100), home, 0%Z, [].
    reflexivity. }
  assert (Hlen : List.length (cancelables full_buffer) = 100) by (vm_compute; reflexivity).
  destruct (eviction_does_not_cancel full_buffer (with_cancelId "/b" "grp2") "grp2"
              Hr Hlen eq_refl eq_refl) as [Hev [_ [_ [_ Htag]]]].
  split; [exact Hev | exact (Htag "grp1")].
Defined.

(** ** C1 and C9: answers from the cache *)

(** C1, as the specification states it, fails when the payload in the
    cache is falsy.  After a successful call whose body was the empty
    string, the cache holds a fresh entry for [/x] and a read returns its
    payload; the next [send] with [cache: true] is nevertheless not
    answered from the cache: it registers the cancelable, logs the
    request and calls the transport. *)
Lemma send_cache_hit_refuted_by_falsy_payload :
  cache (cached "/x") = Some true
  /\ Cacher.read (cacheStore after_empty_body) (now after_empty_body) "/x" None
     = Some {| Cacher.key := "/x"; Cacher.data := JStr ""; Cacher.storedAt := 0 |}
  /\ Cacher.load (cacheStore after_empty_body) (now after_empty_body) "/x" None
     = JStr ""
  /\ (let cfg := with_cancelToken (build_axiosOptions (cached "/x")) 1 in
      snd (fst (send_sync (cached "/x") after_empty_body))
      = [EvLog (log_entry cfg REQUEST None None None); EvAxios cfg])
  /\ List.length (cancelables (fst (fst (send_sync (cached "/x") after_empty_body)))) = 2
  /\ ~ (send_sync (cached "/x") after_empty_body
        = (after_empty_body, [], Immediate (JObj [("data", JStr "")]))).
Proof.
  repeat split. intros H. vm_compute in H. discriminate H.
Qed.

(** C1 (amended).  For every call of [send] with [cache] true for which
    the cache read for the url of the request returns a truthy payload
    (not null or undefined, and not [false], [0] or the empty string),
    [send] resolves at once with [{ data: payload }]; on this path the
    trace is empty, so no network call is issued and no REQUEST or
    RESPONSE entry is logged, and the state is unchanged, so no cancelable
    is registered, whatever [cancelId] is. *)
Theorem send_truthy_cache_hit (o : RequestOptions) (w : World) :
  cache o = Some true ->
  Js.truthy (Cacher.load (cacheStore w) (now w) (url o) (cacheFor o)) = true ->
  let payload := Cacher.load (cacheStore w) (now w) (url o) (cacheFor o) in
  send_sync o w = (w, [], Immediate (JObj [("data", payload)]))
  /\ (forall outcome,
         send o outcome w = (w, [], Resolved (JObj [("data", payload)])))
  /\ Js.get (JObj [("data", payload)]) "data" = payload
  /\ (forall outcome,
         network_calls (events_of (send o outcome w)) = []
         /\ logged (events_of (send o outcome w)) = []
         /\ cancelables (fst (fst (send o outcome w))) = cancelables w).
Proof.
  intros Hc Ht payload.
  assert (E : cachedData o w = payload).
  { unfold cachedData. rewrite Hc. reflexivity. }
  assert (Hs : send_sync o w = (w, [], Immediate (JObj [("data", payload)]))).
  { rewrite <- E. apply send_sync_hit. rewrite E. exact Ht. }
  assert (Hsend : forall outcome,
             send o outcome w = (w, [], Resolved (JObj [("data", payload)]))).
  { intros outcome. unfold send. rewrite Hs. reflexivity. }
  split; [exact Hs | split; [exact Hsend | split; [reflexivity|]]].
  intros outcome. rewrite Hsend. repeat split.
Qed.

Lemma send_truthy_cache_hit_witness :
  send_sync (cached "/x") after_endpoints
  = (after_endpoints, [], Immediate (JObj [("data", endpoints)])).
Proof.
  exact (proj1 (send_truthy_cache_hit (cached "/x") after_endpoints eq_refl eq_refl)).
Defined.

(** C9.  Whenever [send] is answered from the cache, the value it
    resolves with is the object [{ data: cachedData }]: its only key is
    [data], and [status], [statusText] and [headers] are undefined.  The
    value resolved on the network path is the response of the transport,
    which has the keys [data], [status], [statusText], [headers],
    [config] and [request]; the two are never equal. *)
Theorem cache_hit_response_has_only_data (o : RequestOptions) (w : World) (v : JsVal) :
  snd (send_sync o w) = Immediate v ->
  v = JObj [("data", cachedData o w)]
  /\ Js.keys v = ["data"]
  /\ Js.get v "status" = JUndefined
  /\ Js.get v "statusText" = JUndefined
  /\ Js.get v "headers" = JUndefined
  /\ (forall o' cfg r w',
         let full := response_to_js r in
         snd (settle o' cfg (Fulfilled r) w') = Resolved full
         /\ Js.keys full
            = ["data"; "status"; "statusText"; "headers"; "config"; "request"]
         /\ Js.get full "status" = JNum (res_status r)
         /\ Js.get full "statusText" = JStr (res_statusText r)
         /\ Js.get full "headers" = headers_to_js (res_headers r)
         /\ v <> full).
Proof.
  intros H.
  assert (E : v = JObj [("data", cachedData o w)]).
  { destruct (Js.truthy (cachedData o w)) eqn:Hc.
    - rewrite send_sync_hit in H by exact Hc. cbn in H. congruence.
    - destruct (truthy_string (cancelId o)) as [id|] eqn:Hid.
      + rewrite (send_sync_miss_registered _ _ _ Hc Hid) in H. discriminate H.
      + rewrite (send_sync_miss_plain _ _ Hc Hid) in H. discriminate H. }
  subst v. repeat split. intros E. discriminate E.
Qed.

Lemma cache_hit_response_has_only_data_witness :
  Js.keys (JObj [("data", endpoints)]) = ["data"]
  /\ Js.get (JObj [("data", endpoints)]) "status" = JUndefined.
Proof.
  destruct (cache_hit_response_has_only_data (cached "/x") after_endpoints
              (JObj [("data", endpoints)]) eq_refl) as [_ [Hk [Hs _]]].
  split; [exact Hk | exact Hs].
Defined.

(** ** C4 to C7: failures *)

Section Failures.

Lemma redirect_Some (status : Z) (loc : Location) (href : string) :
  redirect status loc = Some href ->
  status = 401%Z /\ isOnLoginPage loc = false.
Proof.
  unfold redirect. destruct (Z.eqb_spec status 401); cbn [negb orb].
  - destruct (isOnLoginPage loc); [discriminate | auto].
  - discriminate.
Qed.

Lemma redirect_401 (loc : Location) :
  isOnLoginPage loc = false ->
  redirect 401 loc
  = Some ("/login?prev="
            ++ (if pathname loc =? "/" then "/" else pathname loc ++ search loc)).
Proof.
  intros H. unfold redirect. rewrite H. cbn [Z.eqb Pos.eqb negb orb].
  destruct (pathname loc =? "/"); reflexivity.
Qed.

Lemma navigations_app (a b : list Event) :
  navigations (a ++ b) = (navigations a ++ navigations b)%list.
Proof. apply filter_app. Qed.

Lemma alerts_app (a b : list Event) :
  alerts (a ++ b) = (alerts a ++ alerts b)%list.
Proof. apply filter_app. Qed.

Lemma on_fulfilled_quiet (o : RequestOptions) (cfg : AxiosRequestConfig)
  (r : AxiosResponse) (w : World) :
  navigations (events_of (on_fulfilled o cfg r w)) = []
  /\ alerts (events_of (on_fulfilled o cfg r w)) = [].
Proof.
  unfold on_fulfilled, events_of. cbn [fst snd].
  destruct (negb (Js.flag (skipLog o))); split; reflexivity.
Qed.

Lemma send_sync_no_navigation (o : RequestOptions) (w : World) :
  navigations (snd (fst (send_sync o w))) = [].
Proof.
  destruct (Js.truthy (cachedData o w)) eqn:Hc.
  - now rewrite send_sync_hit.
  - destruct (truthy_string (cancelId o)) as [id|] eqn:Hid.
    + rewrite (send_sync_miss_registered _ _ _ Hc Hid). cbn [fst snd].
      destruct (negb (Js.flag (skipLog o))); reflexivity.
    + rewrite (send_sync_miss_plain _ _ Hc Hid). cbn [fst snd].
      destruct (negb (Js.flag (skipLog o))); reflexivity.
Qed.

Lemma cancelRequests_no_navigation (tag : string) (w : World) :
  navigations (snd (cancelRequests tag w)) = [].
Proof.
  unfold cancelRequests. cbn [snd].
  induction (filter (has_requestId tag) (cancelables w)) as [|c l IH];
    [reflexivity | exact IH].
Qed.

(** The trace of the [catch] handler when [error.response] and
    [error.request] are set. *)
Lemma on_rejected_response (o : RequestOptions) (cfg : AxiosRequestConfig)
  (e : AxiosError) (r : AxiosResponse) (rq : XHR) (w : World) :
  err_response e = Some r -> err_request e = Some rq ->
  navigations (events_of (on_rejected o cfg e w))
  = (if (Str.indexOf (responseURL rq) "/proxy/" =? -1)%Z
        && (Str.indexOf (responseURL rq) "/azure-login" =? -1)%Z
     then match redirect (res_status r) (location w) with
          | Some href => [EvNavigate href]
          | None => []
          end
     else [])
  /\ alerts (events_of (on_rejected o cfg e w))
     = (if (negb (res_status r =? 401)%Z || negb (isOnLoginPage (location w)))
           && negb (Js.flag (quietError o))
        then [EvAlert (server_alertMessage o r) "error"
                (view_details cfg
                   (JObj [("status", server_status r);
                          ("message", server_message r)]))]
        else [])
  /\ result_of (on_rejected o cfg e w) = Rejected (response_to_js r).
Proof.
  intros Hr Hq. unfold on_rejected, events_of, result_of. rewrite Hr, Hq.
  cbn [fst snd]. rewrite navigations_app, navigations_app, alerts_app, alerts_app.
  split; [|split; [|reflexivity]];
    destruct ((negb (res_status r =? 401)%Z || negb (isOnLoginPage (location w)))
              && negb (Js.flag (quietError o)));
    destruct ((Str.indexOf (responseURL rq) "/proxy/" =? -1)%Z
              && (Str.indexOf (responseURL rq) "/azure-login" =? -1)%Z);
    try destruct (redirect (res_status r) (location w)); reflexivity.
Qed.

Lemma In_navigations (href : string) (events : list Event) :
  In (EvNavigate href) events <-> In (EvNavigate href) (navigations events).
Proof.
  unfold navigations. rewrite filter_In. split; [intros H; now split | tauto].
Qed.

Lemma navigations_nil (events : list Event) :
  (forall href, ~ In (EvNavigate href) events) -> navigations events = [].
Proof.
  induction events as [|ev events IH]; intros H; [reflexivity|].
  destruct ev; try (apply IH; intros h Hin; apply (H h); now right).
  elim (H href). now left.
Qed.

(** When the [catch] handler navigates: the error has a response with
    status 401 and a request whose URL is not on the allow-list, and the
    page is not a login page. *)
Lemma on_rejected_navigates_on_response (o : RequestOptions)
  (cfg : AxiosRequestConfig) (e : AxiosError) (w : World) (href : string) :
  In (EvNavigate href) (events_of (on_rejected o cfg e w)) ->
  exists r rq,
    err_response e = Some r /\ err_request e = Some rq
    /\ res_status r = 401%Z /\ isOnLoginPage (location w) = false
    /\ Str.indexOf (responseURL rq) "/proxy/" = (-1)%Z
    /\ Str.indexOf (responseURL rq) "/azure-login" = (-1)%Z.
Proof.
  rewrite In_navigations. intros Hnav.
  destruct (err_response e) as [r|] eqn:Hr.
  - destruct (err_request e) as [rq|] eqn:Hq.
    + exists r, rq.
      rewrite (proj1 (on_rejected_response o cfg e r rq w Hr Hq)) in Hnav.
      destruct (Z.eqb_spec (Str.indexOf (responseURL rq) "/proxy/") (-1));
        [|contradiction].
      destruct (Z.eqb_spec (Str.indexOf (responseURL rq) "/azure-login") (-1));
        [|contradiction].
      cbn [andb] in Hnav.
      destruct (redirect (res_status r) (location w)) as [h|] eqn:Hred;
        [|contradiction].
      apply redirect_Some in Hred. tauto.
    + exfalso. unfold on_rejected, events_of in Hnav. rewrite Hr, Hq in Hnav.
      cbn [fst snd] in Hnav. destruct (_ && _); contradiction.
  - exfalso. unfold on_rejected, events_of in Hnav. rewrite Hr in Hnav.
    destruct (err_request e).
    + cbn [fst snd] in Hnav. destruct (_ && _); contradiction.
    + destruct (err_constructor_name e =? "Cancel"); contradiction.
Qed.

Lemma on_fulfilled_no_navigation (o : RequestOptions) (cfg : AxiosRequestConfig)
  (r : AxiosResponse) (w : World) (href : string) :
  ~ In (EvNavigate href) (events_of (on_fulfilled o cfg r w)).
Proof.
  rewrite In_navigations, (proj1 (on_fulfilled_quiet o cfg r w)). intros [].
Qed.

Lemma isOnLoginPage_contains (loc : Location) :
  isOnLoginPage loc = true <-> exists a b, pathname loc = a ++ "login" ++ b.
Proof.
  unfold isOnLoginPage, Str.indexOf.
  rewrite <- (indexOf_from_found 0 (pathname loc) "login") by lia.
  destruct (indexOf_from_range 0 (pathname loc) "login") as [H | H].
  - rewrite H. split; [discriminate | congruence].
  - split; [lia|]. intros _. apply Z.gtb_lt. lia.
Qed.

Lemma path_without_login (loc : Location) :
  isOnLoginPage loc = false -> forall a b, pathname loc <> a ++ "login" ++ b.
Proof.
  intros H a b E.
  assert (isOnLoginPage loc = true) by (apply isOnLoginPage_contains; eauto).
  congruence.
Qed.

End Failures.

(** C4, as the specification states it, fails in three ways, each for a
    401 answered to [http://host/api/replicas], a URL off the allow-list.
    - At [/?tab=2] the browser is sent to [/login?prev=/]: at the root
      path the query string is not part of [prev].
    - At [/replicas/login-history], which is not the login page, there is
      no navigation at all: the code takes every path that contains
      [login] for a login page.
    - At [/replicas?a=1&b=2] the browser is sent to
      [/login?prev=/replicas?a=1&b=2]: path and query string are not
      encoded, so the [prev] parameter of that URL is [/replicas?a=1] and
      not the current path plus query string. *)
Lemma unauthorized_redirect_refuted :
  let o := url_only "/api/replicas" in
  let e := unauthorized "http://host/api/replicas" in
  let hrefs loc :=
    navigations (events_of (settle o (build_axiosOptions o) (Failed e)
                              (at_location loc))) in
  (hrefs {| pathname := "/"; search := "?tab=2" |} = [EvNavigate "/login?prev=/"]
   /\ UrlQuery.parameter "prev" "/login?prev=/" <> Some ("/" ++ "?tab=2"))
  /\ (Str.strip_prefix "/login" "/replicas/login-history" = None
      /\ hrefs {| pathname := "/replicas/login-history"; search := "" |} = [])
  /\ (hrefs {| pathname := "/replicas"; search := "?a=1&b=2" |}
      = [EvNavigate "/login?prev=/replicas?a=1&b=2"]
      /\ UrlQuery.parameter "prev" "/login?prev=/replicas?a=1&b=2"
         = Some "/replicas?a=1"
      /\ UrlQuery.parameter "prev" "/login?prev=/replicas?a=1&b=2"
         <> Some ("/replicas" ++ "?a=1&b=2")).
Proof.
  repeat split; intros H; vm_compute in H; discriminate H.
Qed.

(** C4 (amended).  For every failing request whose response carries
    status 401 (and whose error carries the request, as every error with a
    response does), when the current path does not contain [login] and
    the URL of the failing request contains neither [/proxy/] nor
    [/azure-login], the browser is navigated, once, to [/login?prev=]
    followed by the current path and query string exactly as they are,
    without any encoding, when the current path is not [/], and to
    [/login?prev=/] when the current path is [/].  When the current path
    contains [login], as that of the login page does, no outcome of a
    request navigates. *)
Theorem unauthorized_redirects_to_login (o : RequestOptions)
  (cfg : AxiosRequestConfig) (w : World) :
  (forall e r rq,
      err_response e = Some r -> res_status r = 401%Z ->
      err_request e = Some rq ->
      (forall a b, pathname (location w) <> a ++ "login" ++ b) ->
      Str.indexOf (responseURL rq) "/proxy/" = (-1)%Z ->
      Str.indexOf (responseURL rq) "/azure-login" = (-1)%Z ->
      navigations (events_of (settle o cfg (Failed e) w))
      = [EvNavigate
           ("/login?prev="
              ++ (if pathname (location w) =? "/" then "/"
                  else pathname (location w) ++ search (location w)))])
  /\ (forall outcome,
         (exists a b, pathname (location w) = a ++ "login" ++ b) ->
         navigations (events_of (settle o cfg outcome w)) = []).
Proof.
  split.
  - intros e r rq Hr H401 Hq Hpath Hproxy Hazure. cbn [settle].
    assert (Hpage : isOnLoginPage (location w) = false).
    { destruct (isOnLoginPage (location w)) eqn:E; [|reflexivity].
      apply isOnLoginPage_contains in E as [a [b E]]. elim (Hpath a b E). }
    rewrite (proj1 (on_rejected_response o cfg e r rq w Hr Hq)).
    rewrite Hproxy, Hazure, H401, (redirect_401 _ Hpage). reflexivity.
  - intros outcome Hpath. apply isOnLoginPage_contains in Hpath as Hpage.
    apply navigations_nil. intros href Hin.
    destruct outcome as [r | e]; cbn [settle] in Hin.
    + exact (on_fulfilled_no_navigation o cfg r w href Hin).
    + destruct (on_rejected_navigates_on_response o cfg e w href Hin)
        as [r [rq [_ [_ [_ [Hnot _]]]]]].
      congruence.
Qed.

Lemma unauthorized_redirects_to_login_witness :
  navigations
    (events_of
       (settle (url_only "/api/replicas")
          (build_axiosOptions (url_only "/api/replicas"))
          (Failed (unauthorized "http://host/api/replicas"))
          (at_location {| pathname := "/replicas"; search := "?page=2" |})))
  = [EvNavigate "/login?prev=/replicas?page=2"]
  /\ navigations
       (events_of
          (settle (url_only "/api/replicas")
             (build_axiosOptions (url_only "/api/replicas"))
             (Failed (unauthorized "http://host/api/replicas"))
             (at_location {| pathname := "/login"; search := "" |})))
     = [].
Proof.
  split.
  - exact (proj1 (unauthorized_redirects_to_login (url_only "/api/replicas")
                    (build_axiosOptions (url_only "/api/replicas"))
                    (at_location {| pathname := "/replicas"; search := "?page=2" |}))
             (unauthorized "http://host/api/replicas") _ _
             eq_refl eq_refl eq_refl
             (path_without_login {| pathname := "/replicas"; search := "?page=2" |}
                eq_refl)
             eq_refl eq_refl).
  - refine (proj2 (unauthorized_redirects_to_login (url_only "/api/replicas")
                     (build_axiosOptions (url_only "/api/replicas"))
                     (at_location {| pathname := "/login"; search := "" |}))
              (Failed (unauthorized "http://host/api/replicas")) _).
    exists "/", "". reflexivity.
Defined.

(** C5.  In the ServerError and NoResponse buckets a call with
    [quietError: true] emits no alert, and its promise settles exactly as
    with any other value of [quietError]: rejected with the response in
    the ServerError bucket (when the error carries the request, as every
    error with a response does), rejected with [{}] in the NoResponse
    bucket.  In the SetupFailure bucket the alert is emitted whatever
    [quietError] is, and the promise is rejected with
    [{ canceled: false }]. *)
Theorem quietError_suppresses_alert_only (o : RequestOptions)
  (cfg : AxiosRequestConfig) (e : AxiosError) (w : World) :
  let quiet := with_quietError o (Some true) in
  (classify e = ServerError \/ classify e = NoResponse ->
   alerts (events_of (settle quiet cfg (Failed e) w)) = []
   /\ (forall q,
          result_of (settle quiet cfg (Failed e) w)
          = result_of (settle (with_quietError o q) cfg (Failed e) w)))
  /\ (forall r rq q,
         err_response e = Some r -> err_request e = Some rq ->
         classify e = ServerError
         /\ result_of (settle (with_quietError o q) cfg (Failed e) w)
            = Rejected (response_to_js r))
  /\ (classify e = NoResponse ->
      forall q,
        result_of (settle (with_quietError o q) cfg (Failed e) w)
        = Rejected (JObj []))
  /\ (classify e = SetupFailure ->
      forall q,
        alerts (events_of (settle (with_quietError o q) cfg (Failed e) w))
        = [EvAlert (connection_message o) "error"
             (view_details cfg
                (JObj [("message",
                        JStr "Something happened in setting up the request")]))]
        /\ result_of (settle (with_quietError o q) cfg (Failed e) w)
           = Rejected (JObj [("canceled", JBool false)])).
Proof.
  intros quiet. unfold classify, quiet. cbn [settle].
  unfold on_rejected, events_of, result_of.
  destruct (err_response e) as [r|], (err_request e) as [rq|];
    cbn [fst snd quietError with_quietError Js.flag negb andb].
  - split; [|split; [|split]]; try (intros H; discriminate H).
    + intros _. rewrite andb_false_r. split; [|reflexivity].
      rewrite !alerts_app. cbn [alerts filter app is_alert].
      destruct (_ && _); [|reflexivity].
      destruct (redirect _ _); reflexivity.
    + intros r' rq' q Hr _. injection Hr as <-. split; reflexivity.
  - split; [|split; [|split]]; try (intros H; discriminate H).
    + intros _. rewrite andb_false_r. split; reflexivity.
    + intros r' rq' q _ Hq. discriminate Hq.
  - split; [|split; [|split]]; try (intros H; discriminate H).
    + intros _. rewrite andb_false_r. split; reflexivity.
    + intros r' rq' q Hr. discriminate Hr.
    + intros _ q. reflexivity.
  - destruct (err_constructor_name e =? "Cancel");
      (split; [|split; [|split]]); try (intros H; discriminate H).
    + intros [H | H]; discriminate H.
    + intros r' rq' q Hr. discriminate Hr.
    + intros [H | H]; discriminate H.
    + intros r' rq' q Hr. discriminate Hr.
    + intros _ q. split; reflexivity.
Qed.

Lemma quietError_suppresses_alert_only_witness :
  let o := url_only "http://host/api/migrations/abc" in
  let cfg := build_axiosOptions o in
  let w := at_location home in
  let e500 := server_error 500 "Internal Server Error" JNull "http://host/api/migrations/abc" in
  (alerts (events_of (settle (with_quietError o (Some true)) cfg (Failed e500) w)) = []
   /\ alerts (events_of (settle (with_quietError o (Some true)) cfg (Failed no_response) w)) = [])
  /\ result_of (settle (with_quietError o None) cfg (Failed no_response) w)
     = Rejected (JObj [])
  /\ result_of (settle (with_quietError o (Some true)) cfg (Failed setup_failure) w)
     = Rejected (JObj [("canceled", JBool false)]).
Proof.
  intros o cfg w e500.
  split; [split|split].
  - exact (proj1 (proj1 (quietError_suppresses_alert_only o cfg e500 w)
                    (or_introl eq_refl))).
  - exact (proj1 (proj1 (quietError_suppresses_alert_only o cfg no_response w)
                    (or_intror eq_refl))).
  - exact (proj1 (proj2 (proj2 (quietError_suppresses_alert_only o cfg no_response w)))
             eq_refl None).
  - exact (proj2 (proj2 (proj2 (proj2 (quietError_suppresses_alert_only o cfg
                                          setup_failure w)))
                    eq_refl (Some true))).
Defined.

(** C6.  For every call whose failure falls in the Cancelled bucket (the
    transport rejected with a [Cancel], which is what it does when the
    cancel function of the call was invoked), the promise is rejected with
    [{ canceled: true }], exactly one entry is logged, a RESPONSE with
    status "canceled", whatever [skipLog] is, and no alert is emitted. *)
Theorem cancelled_rejects_and_logs_without_alert (o : RequestOptions)
  (cfg : AxiosRequestConfig) (e : AxiosError) (w : World) :
  classify e = Cancelled ->
  settle o cfg (Failed e) w
  = (w,
     [EvLog {| log_url := cfg_url cfg;
               log_method := string_or (Some (cfg_method cfg)) "GET";
               log_type := RESPONSE;
               log_requestStatus := Some (JStr "canceled");
               log_description := None;
               log_requestError := None |}],
     Rejected (JObj [("canceled", JBool true)]))
  /\ alerts (events_of (settle o cfg (Failed e) w)) = []
  /\ classify Cancel = Cancelled.
Proof.
  unfold classify. cbn [settle]. unfold on_rejected, events_of.
  destruct (err_response e), (err_request e); try discriminate.
  destruct (err_constructor_name e =? "Cancel"); [|discriminate].
  intros _. repeat split.
Qed.

(** The scenario of the specification: [send({ url: '/y', cancelId:
    'grp1' })], then [cancelRequests('grp1')] before the call settles,
    then the transport rejects with [Cancel]. *)
Lemma cancelled_rejects_and_logs_without_alert_witness :
  let o := with_cancelId "/y" "grp1" in
  let w0 := at_location home in
  let w1 := fst (fst (send_sync o w0)) in
  let cfg := with_cancelToken (build_axiosOptions o) 0 in
  let w2 := fst (cancelRequests "grp1" w1) in
  snd (send_sync o w0) = Pending cfg
  /\ cancelables w1 = [{| requestId := "grp1"; cancel := 0 |}]
  /\ snd (cancelRequests "grp1" w1) = [EvCancel 0]
  /\ cancelables w2 = []
  /\ settle o cfg (Failed Cancel) w2
     = (w2,
        [EvLog {| log_url := "/y"; log_method := "GET"; log_type := RESPONSE;
                  log_requestStatus := Some (JStr "canceled");
                  log_description := None; log_requestError := None |}],
        Rejected (JObj [("canceled", JBool true)])).
Proof.
  intros o w0 w1 cfg w2.
  repeat (split; [reflexivity|]).
  exact (proj1 (cancelled_rejects_and_logs_without_alert o cfg Cancel w2 eq_refl)).
Defined.

(** C7.  A navigation is triggered only by the [catch] handler, only for
    an error with a response, and only when the status of that response
    is 401: the part of [send] that runs before it returns, the [then]
    handler and [cancelRequests] never navigate, and neither does the
    handling of a failure in the NoResponse, Cancelled or SetupFailure
    bucket. *)
Theorem redirect_only_from_401_response (o : RequestOptions)
  (cfg : AxiosRequestConfig) (w : World) :
  (forall outcome href,
      In (EvNavigate href) (events_of (settle o cfg outcome w)) ->
      exists e r,
        outcome = Failed e /\ classify e = ServerError
        /\ err_response e = Some r /\ res_status r = 401%Z)
  /\ (forall e,
         classify e = NoResponse \/ classify e = Cancelled
         \/ classify e = SetupFailure ->
         navigations (events_of (settle o cfg (Failed e) w)) = [])
  /\ navigations (snd (fst (send_sync o w))) = []
  /\ (forall tag, navigations (snd (cancelRequests tag w)) = []).
Proof.
  split; [|split; [|split]].
  - intros outcome href Hin. destruct outcome as [r | e]; cbn [settle] in Hin.
    + elim (on_fulfilled_no_navigation o cfg r w href Hin).
    + destruct (on_rejected_navigates_on_response o cfg e w href Hin)
        as [r [rq [Hr [_ [H401 _]]]]].
      exists e, r. unfold classify. rewrite Hr. auto.
  - intros e Hb. apply navigations_nil. intros href Hin. cbn [settle] in Hin.
    destruct (on_rejected_navigates_on_response o cfg e w href Hin)
      as [r [rq [Hr _]]].
    unfold classify in Hb. rewrite Hr in Hb.
    destruct Hb as [Hb | [Hb | Hb]]; discriminate Hb.
  - apply send_sync_no_navigation.
  - intros tag. apply cancelRequests_no_navigation.
Qed.

Lemma redirect_only_from_401_response_witness :
  let o := url_only "/api/replicas" in
  let e := unauthorized "http://host/api/replicas" in
  (exists e' r,
      Failed e = Failed e' /\ classify e' = ServerError
      /\ err_response e' = Some r /\ res_status r = 401%Z)
  /\ navigations (events_of (settle o (build_axiosOptions o) (Failed no_response)
                               (at_location home))) = [].
Proof.
  intros o e. split.
  - apply (proj1 (redirect_only_from_401_response o (build_axiosOptions o)
                    (at_location home))
             (Failed e) "/login?prev=/replicas").
    cbn. right. left. reflexivity.
  - apply (proj1 (proj2 (redirect_only_from_401_response o (build_axiosOptions o)
                           (at_location home)))).
    left. reflexivity.
Defined.

(** * Further properties of ApiCaller.ts *)

(** ** Logging *)

Section Logging.

Lemma logged_app (a b : list Event) :
  logged (a ++ b) = (logged a ++ logged b)%list.
Proof.
  induction a as [|ev a IH]; [reflexivity|].
  destruct ev; cbn; rewrite ?IH; reflexivity.
Qed.

Lemma network_calls_app (a b : list Event) :
  network_calls (a ++ b) = (network_calls a ++ network_calls b)%list.
Proof. apply filter_app. Qed.

(** [send] when the cache does not answer, whatever [cancelId] is. *)
Lemma send_sync_miss (o : RequestOptions) (w : World) :
  Js.truthy (cachedData o w) = false ->
  exists w1 cfg,
    send_sync o w
    = (w1,
       ((if negb (Js.flag (skipLog o))
         then [EvLog (log_entry cfg REQUEST None None None)]
         else []) ++ [EvAxios cfg])%list,
       Pending cfg)
    /\ cfg_url cfg = url o
    /\ cfg_method cfg = string_or (method o) "GET"
    /\ cfg_data cfg = Js.or (data o) JNull
    /\ cacheStore w1 = cacheStore w /\ now w1 = now w /\ location w1 = location w.
Proof.
  intros Hc. destruct (truthy_string (cancelId o)) as [id|] eqn:Hid.
  - rewrite (send_sync_miss_registered _ _ _ Hc Hid).
    eexists _, _. repeat split.
  - rewrite (send_sync_miss_plain _ _ Hc Hid).
    eexists _, _. repeat split.
Qed.

Lemma send_sync_Pending_miss (o : RequestOptions) (w : World)
  (cfg : AxiosRequestConfig) :
  snd (send_sync o w) = Pending cfg -> Js.truthy (cachedData o w) = false.
Proof.
  intros H. destruct (Js.truthy (cachedData o w)) eqn:Hc; [|reflexivity].
  rewrite send_sync_hit in H by exact Hc. discriminate H.
Qed.

Lemma on_rejected_world (o : RequestOptions) (cfg : AxiosRequestConfig)
  (e : AxiosError) (w : World) :
  fst (fst (on_rejected o cfg e w)) = w.
Proof.
  unfold on_rejected.
  destruct (err_response e), (err_request e);
    try destruct (err_constructor_name e =? "Cancel"); reflexivity.
Qed.

Lemma on_fulfilled_world (o : RequestOptions) (cfg : AxiosRequestConfig)
  (r : AxiosResponse) (w : World) :
  fst (fst (on_fulfilled o cfg r w))
  = if Js.flag (cache o)
    then set_cacheStore w
           (Cacher.save (cacheStore w) (now w) (url o) (res_data r))
    else w.
Proof. reflexivity. Qed.

Lemma append_assoc (a b c : string) : (a ++ b) ++ c = a ++ b ++ c.
Proof. induction a as [|x a IH]; cbn; [reflexivity | now rewrite IH]. Qed.

End Logging.

(** X1.  A failure is logged whatever [skipLog] is: the [catch] handler
    never consults it.  Whenever the promise is rejected, exactly one
    entry is logged, a RESPONSE for the URL of the request; only when the
    handler itself throws (an error with a response but without its
    request) is nothing logged.  On a fulfilled answer, [skipLog: true]
    leaves the trace empty. *)
Theorem failure_logged_despite_skipLog (o : RequestOptions)
  (cfg : AxiosRequestConfig) (e : AxiosError) (w : World) :
  (forall s,
      events_of (settle (with_skipLog o s) cfg (Failed e) w)
      = events_of (settle o cfg (Failed e) w))
  /\ ((result_of (settle o cfg (Failed e) w) = Unsettled
       /\ logged (events_of (settle o cfg (Failed e) w)) = [])
      \/ (exists entry reason,
             result_of (settle o cfg (Failed e) w) = Rejected reason
             /\ logged (events_of (settle o cfg (Failed e) w)) = [entry]
             /\ log_type entry = RESPONSE
             /\ log_url entry = cfg_url cfg))
  /\ (forall r,
         events_of (settle (with_skipLog o (Some true)) cfg (Fulfilled r) w) = []).
Proof.
  split; [|split].
  - intros s. reflexivity.
  - cbn [settle]. unfold on_rejected, events_of, result_of.
    destruct (err_response e) as [r|], (err_request e) as [rq|]; cbn [fst snd].
    + right. eexists _, _. split; [reflexivity|].
      rewrite !logged_app.
      destruct (_ && _); destruct (_ && _);
        try destruct (redirect _ _); cbn; repeat split.
    + left. split; [reflexivity|]. destruct (_ && _); reflexivity.
    + right. eexists _, _. split; [reflexivity|].
      rewrite !logged_app. destruct (_ && _); cbn; repeat split.
    + right. destruct (err_constructor_name e =? "Cancel");
        eexists _, _; cbn; repeat split.
  - intros r. reflexivity.
Qed.

(** X2.  A call that reaches the transport and is fulfilled logs, unless
    [skipLog], exactly two entries: the REQUEST before the call of the
    transport and a RESPONSE whose status is 200 whatever the status of
    the response is.  It resolves with the response of the transport and
    raises no alert. *)
Theorem fulfilled_call_logs_request_and_200 (o : RequestOptions) (w : World)
  (cfg : AxiosRequestConfig) (r : AxiosResponse) :
  snd (send_sync o w) = Pending cfg ->
  logged (events_of (send o (Fulfilled r) w))
  = (if Js.flag (skipLog o) then []
     else [log_entry cfg REQUEST None None None;
           log_entry cfg RESPONSE (Some (JNum 200)) None None])
  /\ network_calls (events_of (send o (Fulfilled r) w)) = [EvAxios cfg]
  /\ alerts (events_of (send o (Fulfilled r) w)) = []
  /\ result_of (send o (Fulfilled r) w) = Resolved (response_to_js r).
Proof.
  intros H. pose proof (send_sync_Pending_miss o w cfg H) as Hc.
  destruct (send_sync_miss o w Hc) as [w1 [cfg' [Hs _]]].
  rewrite Hs in H. cbn [snd] in H. injection H as ->.
  unfold send, events_of, result_of. rewrite Hs. cbn [settle].
  unfold on_fulfilled. cbn [fst snd].
  destruct (Js.flag (skipLog o)); cbn; repeat split.
Qed.

Lemma fulfilled_call_logs_request_and_200_witness :
  let o := url_only "/x" in
  let cfg := build_axiosOptions o in
  let r := {| res_data := JNull; res_status := 204; res_statusText := "No Content";
              res_headers := []; res_config := cfg;
              res_request := {| responseURL := "http://host/x" |} |} in
  logged (events_of (send o (Fulfilled r) (at_location home)))
  = [log_entry cfg REQUEST None None None;
     log_entry cfg RESPONSE (Some (JNum 200)) None None].
Proof.
  intros o cfg r.
  exact (proj1 (fulfilled_call_logs_request_and_200 o (at_location home) cfg r eq_refl)).
Defined.

(** X3.  What the transport is handed.  Whenever [send] reaches the
    transport it calls it once, with the URL of the options, a method
    that is never empty (GET when none is given), and a body that is
    either truthy or null: a falsy body ([0], [false], the empty string)
    is replaced by null.  The call carries a cancel token exactly when
    [cancelId] is a non-empty string. *)
Theorem transport_call_shape (o : RequestOptions) (w : World)
  (cfg : AxiosRequestConfig) :
  snd (send_sync o w) = Pending cfg ->
  network_calls (snd (fst (send_sync o w))) = [EvAxios cfg]
  /\ cfg_url cfg = url o
  /\ cfg_method cfg <> ""
  /\ (method o = None -> cfg_method cfg = "GET")
  /\ (Js.truthy (cfg_data cfg) = true \/ cfg_data cfg = JNull)
  /\ (cfg_cancelToken cfg = None <-> truthy_string (cancelId o) = None).
Proof.
  intros H. pose proof (send_sync_Pending_miss o w cfg H) as Hc.
  assert (Hm : string_or (method o) "GET" <> "").
  { unfold string_or. destruct (method o) as [m|]; [|discriminate].
    destruct (String.eqb_spec m ""); [discriminate | assumption]. }
  assert (Hd : Js.truthy (Js.or (data o) JNull) = true
               \/ Js.or (data o) JNull = JNull).
  { unfold Js.or. destruct (Js.truthy (data o)) eqn:E; auto. }
  destruct (truthy_string (cancelId o)) as [id|] eqn:Hid.
  - rewrite (send_sync_miss_registered _ _ _ Hc Hid) in *.
    cbn [fst snd] in *. injection H as <-.
    split; [destruct (negb (Js.flag (skipLog o))); reflexivity|].
    cbn. repeat split; auto; try discriminate.
    intros ->. reflexivity.
  - rewrite (send_sync_miss_plain _ _ Hc Hid) in *.
    cbn [fst snd] in *. injection H as <-.
    split; [destruct (negb (Js.flag (skipLog o))); reflexivity|].
    cbn. repeat split; auto.
    intros ->. reflexivity.
Qed.

Lemma transport_call_shape_witness :
  let o := MigrationSource.request "/x" "" (JNum 0) in
  cfg_method (build_axiosOptions o) <> ""
  /\ (Js.truthy (cfg_data (build_axiosOptions o)) = true
      \/ cfg_data (build_axiosOptions o) = JNull).
Proof.
  intros o.
  destruct (transport_call_shape o (at_location home) (build_axiosOptions o) eq_refl)
    as [_ [_ [Hm [_ [Hd _]]]]].
  split; [exact Hm | exact Hd].
Defined.

(** X4.  The direction of settlement.  A failure of the transport never
    resolves the promise and changes nothing of the state: the cache is
    not written and the cancelable of the call stays in the buffer.  A
    fulfilled answer always resolves with the response, raises no alert
    and navigates nowhere; of the state it changes the cache at most,
    and only under [cache: true]. *)
Theorem settle_direction (o : RequestOptions) (cfg : AxiosRequestConfig) (w : World) :
  (forall e,
      fst (fst (settle o cfg (Failed e) w)) = w
      /\ forall v, result_of (settle o cfg (Failed e) w) <> Resolved v)
  /\ (forall r,
         result_of (settle o cfg (Fulfilled r) w) = Resolved (response_to_js r)
         /\ alerts (events_of (settle o cfg (Fulfilled r) w)) = []
         /\ navigations (events_of (settle o cfg (Fulfilled r) w)) = []
         /\ cancelables (fst (fst (settle o cfg (Fulfilled r) w))) = cancelables w
         /\ cacheStore (fst (fst (settle o cfg (Fulfilled r) w)))
            = (if Js.flag (cache o)
               then Cacher.save (cacheStore w) (now w) (url o) (res_data r)
               else cacheStore w)).
Proof.
  split.
  - intros e. cbn [settle]. unfold on_rejected, result_of.
    destruct (err_response e), (err_request e);
      try destruct (err_constructor_name e =? "Cancel");
      cbn [fst snd]; split; try reflexivity; intros v; discriminate.
  - intros r. cbn [settle]. unfold on_fulfilled, result_of, events_of.
    cbn [fst snd].
    destruct (Js.flag (cache o)), (negb (Js.flag (skipLog o))); repeat split.
Qed.

(** X5.  [get(url)] always goes to the transport: it does not read the
    cache, even when the cache holds a fresh entry for the URL, does not
    write it, and registers no cancelable.  The call is a GET for the
    URL with a null body. *)
Theorem get_bypasses_cache_and_buffer (u : string) (outcome : TransportOutcome)
  (w : World) :
  network_calls (events_of (get u outcome w))
  = [EvAxios {| cfg_url := u; cfg_method := "GET"; cfg_headers := [];
                cfg_data := JNull; cfg_responseType := json;
                cfg_cancelToken := None |}]
  /\ cancelables (fst (fst (get u outcome w))) = cancelables w
  /\ nextCancel (fst (fst (get u outcome w))) = nextCancel w
  /\ cacheStore (fst (fst (get u outcome w))) = cacheStore w.
Proof.
  unfold get, send, events_of.
  rewrite (send_sync_miss_plain (url_only u) w eq_refl eq_refl).
  cbn [skipLog url_only Js.flag negb].
  pose proof (settle_buffer (url_only u) (build_axiosOptions (url_only u)) outcome w)
    as [Hb Hn].
  destruct outcome as [r | e]; cbn [settle] in *.
  - unfold on_fulfilled in *. cbn [fst snd cache url_only Js.flag skipLog negb] in *.
    repeat split.
  - destruct (on_rejected (url_only u) (build_axiosOptions (url_only u)) e w)
      as [[w2 ev2] res] eqn:E.
    cbn [fst snd] in *.
    assert (Hw : w2 = w).
    { pose proof (on_rejected_world (url_only u)
                    (build_axiosOptions (url_only u)) e w) as H.
      rewrite E in H. exact H. }
    subst w2. repeat split.
    rewrite network_calls_app. cbn [app network_calls filter is_axios].
    f_equal.
    assert (Hev : ev2 = events_of (on_rejected (url_only u)
                                     (build_axiosOptions (url_only u)) e w)).
    { unfold events_of. now rewrite E. }
    rewrite Hev. unfold on_rejected, events_of.
    destruct (err_response e), (err_request e);
      try destruct (err_constructor_name e =? "Cancel"); cbn [fst snd];
      rewrite ?network_calls_app;
      repeat (destruct (_ && _)); try destruct (redirect _ _); reflexivity.
Qed.

(** ** Cancellation *)

Section CancelFacts.

Lemma filter_all {A : Type} (f : A -> bool) (l : list A) :
  (forall x, In x l -> f x = true) -> filter f l = l.
Proof.
  induction l as [|x l IH]; intros H; [reflexivity|]. cbn.
  rewrite (H x) by now left. f_equal. apply IH. intros y Hy. apply H. now right.
Qed.

Lemma filter_none {A : Type} (f : A -> bool) (l : list A) :
  (forall x, In x l -> f x = false) -> filter f l = [].
Proof.
  induction l as [|x l IH]; intros H; [reflexivity|]. cbn.
  rewrite (H x) by now left. apply IH. intros y Hy. apply H. now right.
Qed.

Lemma filter_comm {A : Type} (f g : A -> bool) (l : list A) :
  filter f (filter g l) = filter g (filter f l).
Proof.
  induction l as [|x l IH]; [reflexivity|]. cbn.
  destruct (f x) eqn:Ef, (g x) eqn:Eg; cbn; rewrite ?Ef, ?Eg, IH; reflexivity.
Qed.

Lemma set_cancelables_same (w : World) : set_cancelables w (cancelables w) = w.
Proof. destruct w; reflexivity. Qed.

Lemma has_requestId_other (t1 t2 : string) (c : Cancelable) :
  t1 <> t2 -> has_requestId t2 c = true -> has_requestId t1 c = false.
Proof.
  rewrite has_requestId_true, has_requestId_false. congruence.
Qed.

End CancelFacts.

(** X6.  From a world the module can reach, let [send] carry a non-empty
    [cancelId] and reach the transport.  The token handed to the
    transport is the cancel function registered at the newest end of the
    buffer, and it stays registered when the call settles, whatever the
    outcome: [cancelRequests(cancelId)], before or after the call has
    settled, invokes that function exactly once, and first. *)
Theorem cancelRequests_reaches_the_call (w : World) (o : RequestOptions)
  (id : string) (outcome : TransportOutcome) :
  reachable w ->
  Js.truthy (cachedData o w) = false ->
  truthy_string (cancelId o) = Some id ->
  let h := nextCancel w in
  let w1 := fst (fst (send_sync o w)) in
  let w2 := fst (fst (send o outcome w)) in
  snd (send_sync o w) = Pending (with_cancelToken (build_axiosOptions o) h)
  /\ hd_error (cancelables w1) = Some {| requestId := id; cancel := h |}
  /\ cancelables w2 = cancelables w1
  /\ hd_error (canceled_handles (snd (cancelRequests id w1))) = Some h
  /\ count_occ Nat.eq_dec (canceled_handles (snd (cancelRequests id w1))) h = 1
  /\ snd (cancelRequests id w2) = snd (cancelRequests id w1).
Proof.
  intros Hr Hc Hid h w1 w2.
  pose proof (reachable_Inv w Hr) as HI.
  pose proof (addCancelable_fresh id w HI) as HI1.
  assert (Hs := send_sync_miss_registered o w id Hc Hid).
  cbv zeta in Hs. fold h in Hs.
  assert (Hw1 : w1 = set_cancelables (set_nextCancel w (S h))
                       (addCancelable {| requestId := id; cancel := h |}
                          (cancelables w))).
  { unfold w1. now rewrite Hs. }
  assert (Hbuf : cancelables w1
                 = {| requestId := id; cancel := h |}
                     :: (if (100 <=? List.length (cancelables w))%nat
                         then removelast (cancelables w) else cancelables w)).
  { rewrite Hw1. cbn [cancelables set_cancelables].
    apply addCancelable_unshift_pop. }
  assert (H12 : cancelables w2 = cancelables w1).
  { unfold w2, send. rewrite Hs. fold h.
    pose proof (settle_buffer o (with_cancelToken (build_axiosOptions o) h)
                  outcome
                  (set_cancelables (set_nextCancel w (S h))
                     (addCancelable {| requestId := id; cancel := h |}
                        (cancelables w)))) as [Hb _].
    destruct (settle o _ outcome _) as [[w' ev] res]. cbn [fst] in *.
    rewrite Hb, Hw1. reflexivity. }
  assert (Hcan : canceled_handles (snd (cancelRequests id w1))
                 = h :: map cancel
                          (filter (has_requestId id)
                             (if (100 <=? List.length (cancelables w))%nat
                              then removelast (cancelables w) else cancelables w))).
  { unfold cancelRequests. cbn [snd]. rewrite canceled_handles_map, Hbuf.
    cbn [filter]. unfold has_requestId at 1. cbn [requestId].
    rewrite String.eqb_refl. reflexivity. }
  split; [now rewrite Hs|].
  split; [now rewrite Hbuf|].
  split; [exact H12|].
  split; [now rewrite Hcan|].
  split.
  - apply NoDup_count_occ'.
    + unfold cancelRequests. cbn [snd]. rewrite canceled_handles_map.
      apply NoDup_map_filter. rewrite Hw1. exact (proj2 (proj2 HI1)).
    + rewrite Hcan. now left.
  - unfold cancelRequests. cbn [snd]. now rewrite H12.
Qed.

Lemma cancelRequests_reaches_the_call_witness :
  let o := with_cancelId "/c" "grp1" in
  hd_error (canceled_handles
              (snd (cancelRequests "grp1" (fst (fst (send_sync o three_registered))))))
  = Some 3
  /\ snd (cancelRequests "grp1"
            (fst (fst (send o (Failed no_response) three_registered))))
     = [EvCancel 3; EvCancel 2; EvCancel 0].
Proof.
  intros o.
  assert (Hr : reachable three_registered).
  { exists [CallSend (with_cancelId "/a" "grp1");
            CallSend (with_cancelId "/b" "grp2");
            CallSend (with_cancelId "/c" "grp1")], home, 0%Z, [].
    reflexivity. }
  destruct (cancelRequests_reaches_the_call three_registered o "grp1"
              (Failed no_response) Hr eq_refl eq_refl)
    as [_ [_ [_ [Hhd [_ Hsame]]]]].
  split; [exact Hhd | exact Hsame].
Defined.

(** X7.  [cancelRequests] with a tag under which nothing is registered
    does nothing at all: no function is invoked and the state is the
    same. *)
Theorem cancelRequests_unknown_tag (tag : string) (w : World) :
  (forall c, In c (cancelables w) -> requestId c <> tag) ->
  cancelRequests tag w = (w, []).
Proof.
  intros H. unfold cancelRequests.
  rewrite filter_all, filter_none, set_cancelables_same; [reflexivity | |].
  - intros c Hc. apply has_requestId_false. auto.
  - intros c Hc. apply negb_true_iff, has_requestId_false. auto.
Qed.

Lemma cancelRequests_unknown_tag_witness :
  cancelRequests "grp3" three_registered = (three_registered, []).
Proof.
  apply cancelRequests_unknown_tag. cbn.
  intros c [<- | [<- | [<- | []]]]; discriminate.
Defined.

(** X8.  Groups are independent.  Cancelling two different tags leaves
    the same state in either order, and the functions invoked for a tag
    are the same whether or not the other tag was cancelled before. *)
Theorem cancelRequests_groups_independent (t1 t2 : string) (w : World) :
  t1 <> t2 ->
  fst (cancelRequests t2 (fst (cancelRequests t1 w)))
  = fst (cancelRequests t1 (fst (cancelRequests t2 w)))
  /\ snd (cancelRequests t2 (fst (cancelRequests t1 w)))
     = snd (cancelRequests t2 w).
Proof.
  intros Hne. unfold cancelRequests.
  cbn [fst snd cancelables set_cancelables nextCancel cacheStore now location].
  split.
  - unfold set_cancelables. cbn [cancelables nextCancel cacheStore now location].
    f_equal. apply filter_comm.
  - f_equal. rewrite filter_comm. apply filter_all.
    intros c Hc. apply filter_In in Hc as [_ Hc].
    apply negb_true_iff. eapply has_requestId_other; eassumption.
Qed.

Lemma cancelRequests_groups_independent_witness :
  snd (cancelRequests "grp2" (fst (cancelRequests "grp1" three_registered)))
  = snd (cancelRequests "grp2" three_registered).
Proof.
  apply cancelRequests_groups_independent. discriminate.
Defined.

(** X9.  Once 100 or more cancelables have been registered, the buffer
    holds the last 100 of them, newest first, and nothing of what it
    held before. *)
Theorem buffer_forgets_older_entries (cs b : list Cancelable) :
  List.length b <= 100 -> 100 <= List.length cs ->
  register_all cs b = firstn 100 (rev cs).
Proof.
  intros Hb Hcs. rewrite register_all_firstn by exact Hb.
  rewrite firstn_app.
  replace (100 - List.length (rev cs)) with 0 by (rewrite length_rev; lia).
  cbn [firstn]. apply app_nil_r.
Qed.

Lemma buffer_forgets_older_entries_witness :
  let entry i := {| requestId := "poll"; cancel := i |} in
  register_all (map entry (seq 1 100)) [entry 0] = rev (map entry (seq 1 100)).
Proof.
  intros entry.
  rewrite (buffer_forgets_older_entries (map entry (seq 1 100)) [entry 0]);
    [reflexivity | cbn; lia | cbn; lia].
Defined.

(** ** Alerts and the login page *)

Section AlertFacts.

Lemma get_falsy (v : JsVal) (k : string) :
  Js.truthy v = false -> Js.get v k = JUndefined.
Proof. destruct v; try reflexivity. discriminate. Qed.

Lemma append_not_empty (a b : string) (c : ascii) :
  (a ++ String c b =? "") = false.
Proof. destruct a; reflexivity. Qed.

End AlertFacts.

(** X10.  [isOnLoginPage] holds exactly when [login] occurs somewhere in
    the path: every page whose path contains these five letters, and not
    only [/login], counts as a login page. *)
Theorem isOnLoginPage_iff_path_contains_login (loc : Location) :
  isOnLoginPage loc = true <-> exists a b, pathname loc = a ++ "login" ++ b.
Proof. exact (isOnLoginPage_contains loc). Qed.

(** X11.  On a login page a 401 is silent: no alert and no navigation.
    So is a failure without a response.  A response with another status
    still raises its alert there unless [quietError], and so does a
    failure in setting up the request, whatever [quietError] is. *)
Theorem login_page_alerts (o : RequestOptions) (cfg : AxiosRequestConfig)
  (w : World) :
  isOnLoginPage (location w) = true ->
  (forall e r,
      err_response e = Some r -> res_status r = 401%Z ->
      alerts (events_of (settle o cfg (Failed e) w)) = []
      /\ navigations (events_of (settle o cfg (Failed e) w)) = [])
  /\ (forall e,
         classify e = NoResponse ->
         alerts (events_of (settle o cfg (Failed e) w)) = [])
  /\ (forall e r rq,
         err_response e = Some r -> err_request e = Some rq ->
         res_status r <> 401%Z -> Js.flag (quietError o) = false ->
         alerts (events_of (settle o cfg (Failed e) w))
         = [EvAlert (server_alertMessage o r) "error"
              (view_details cfg
                 (JObj [("status", server_status r);
                        ("message", server_message r)]))])
  /\ (forall e,
         classify e = SetupFailure ->
         alerts (events_of (settle o cfg (Failed e) w))
         = [EvAlert (connection_message o) "error"
              (view_details cfg
                 (JObj [("message",
                         JStr "Something happened in setting up the request")]))]).
Proof.
  intros Hpage. split; [|split; [|split]].
  - intros e r Hr H401. split.
    + cbn [settle]. unfold on_rejected, events_of. rewrite Hr, H401, Hpage.
      cbn [Z.eqb Pos.eqb negb orb andb].
      destruct (err_request e); cbn [fst snd]; [|reflexivity].
      rewrite !alerts_app. destruct (_ && _); try destruct (redirect _ _);
        reflexivity.
    + apply navigations_nil. intros href Hin. cbn [settle] in Hin.
      destruct (on_rejected_navigates_on_response o cfg e w href Hin)
        as [r' [rq [_ [_ [_ [Hnot _]]]]]].
      congruence.
  - intros e He. cbn [settle]. unfold classify in He.
    unfold on_rejected, events_of.
    destruct (err_response e); [discriminate|].
    destruct (err_request e);
      [|destruct (err_constructor_name e =? "Cancel"); discriminate].
    cbn [fst snd]. rewrite Hpage. reflexivity.
  - intros e r rq Hr Hq Hs Hquiet. cbn [settle].
    rewrite (proj1 (proj2 (on_rejected_response o cfg e r rq w Hr Hq))).
    rewrite Hquiet. destruct (Z.eqb_spec (res_status r) 401); [contradiction|].
    reflexivity.
  - intros e He. cbn [settle]. unfold classify in He.
    unfold on_rejected, events_of.
    destruct (err_response e); [discriminate|].
    destruct (err_request e); [discriminate|].
    destruct (err_constructor_name e =? "Cancel"); [discriminate|]. reflexivity.
Qed.

Lemma isOnLoginPage_iff_path_contains_login_witness :
  isOnLoginPage {| pathname := "/replicas/login-history"; search := "" |} = true.
Proof.
  apply (proj2 (isOnLoginPage_iff_path_contains_login
                  {| pathname := "/replicas/login-history"; search := "" |})).
  exists "/replicas/", "-history". reflexivity.
Defined.

Lemma login_page_alerts_witness :
  let o := url_only "/api/users" in
  let w := at_location {| pathname := "/login"; search := "?prev=/" |} in
  alerts (events_of (settle o (build_axiosOptions o)
                       (Failed (unauthorized "http://host/api/users")) w)) = []
  /\ alerts (events_of (settle o (build_axiosOptions o) (Failed no_response) w)) = []
  /\ alerts (events_of (settle o (build_axiosOptions o)
                          (Failed (server_error 500 "" JNull "http://host/api/users"))
                          w))
     = [EvAlert (JStr "500 /api/users/api/users") "error"
          (view_details (build_axiosOptions o)
             (JObj [("status", JNum 500); ("message", JNull)]))].
Proof.
  intros o w.
  destruct (login_page_alerts o (build_axiosOptions o) w eq_refl)
    as [H401 [Hnone [Hother _]]].
  split; [|split].
  - exact (proj1 (H401 (unauthorized "http://host/api/users") _ eq_refl eq_refl)).
  - exact (Hnone no_response eq_refl).
  - refine (Hother (server_error 500 "" JNull "http://host/api/users") _ _
              eq_refl eq_refl _ eq_refl).
    discriminate.
Defined.

(** X12.  The text of the alert for a response outside 2xx: the
    [error.message] of the body when it is truthy, otherwise the
    [description] of the body when it is truthy, otherwise the status
    text (or, when that is empty, the status code) followed by a space
    and the truncated URL.  The message is never empty. *)
Theorem server_alert_message_precedence (o : RequestOptions) (r : AxiosResponse) :
  let message := Js.get (Js.get (res_data r) "error") "message" in
  let description := Js.get (res_data r) "description" in
  server_alertMessage o r
  = (if Js.truthy message then message
     else if Js.truthy description then description
     else JStr ((if res_statusText r =? "" then Str.of_Z (res_status r)
                 else res_statusText r) ++ " " ++ truncateUrl (url o)))
  /\ Js.truthy (server_alertMessage o r) = true
  /\ Js.truthy (connection_message o) = true.
Proof.
  intros message description.
  assert (Hfallback : forall a b, Js.truthy (JStr (a ++ " " ++ b)) = true).
  { intros a b. cbn [Js.truthy]. change (" " ++ b) with (String " " b).
    now rewrite append_not_empty. }
  assert (E : server_alertMessage o r
              = (if Js.truthy message then message
                 else if Js.truthy description then description
                 else JStr (statusText_or_status r ++ " " ++ truncateUrl (url o)))).
  { unfold server_alertMessage, server_message, Js.or, message, description.
    fold (statusText_or_status r).
    destruct (Js.truthy (res_data r)) eqn:HD.
    - destruct (Js.truthy (Js.get (res_data r) "error")) eqn:HE.
      + destruct (Js.truthy (Js.get (Js.get (res_data r) "error") "message")) eqn:HM.
        * rewrite ?HM. reflexivity.
        * destruct (Js.truthy (Js.get (res_data r) "description")) eqn:HDd;
            rewrite ?HDd; reflexivity.
      + rewrite ?HE, (get_falsy _ "message" HE). cbn [Js.truthy].
        destruct (Js.truthy (Js.get (res_data r) "description")) eqn:HDd;
          rewrite ?HDd; reflexivity.
    - rewrite ?HD, !(get_falsy _ _ HD). reflexivity. }
  split; [exact E | split].
  - rewrite E. destruct (Js.truthy message) eqn:Hm; [exact Hm|].
    destruct (Js.truthy description) eqn:Hd; [exact Hd|]. apply Hfallback.
  - reflexivity.
Qed.

(** ** The length of the truncated URL *)

Section TruncateBound.

Lemma strip_prefix_length (p s r : string) :
  Str.strip_prefix p s = Some r ->
  String.length s = String.length p + String.length r.
Proof.
  revert s. induction p as [|a p IH]; intros [|b s] H; cbn in *;
    try discriminate; try (injection H as <-; reflexivity).
  destruct (Ascii.eqb a b); [|discriminate]. now rewrite (IH s H).
Qed.

Lemma lazy_dots_slash_length (s r : string) :
  Regex.lazy_dots_slash s = Some r -> String.length r < String.length s.
Proof.
  induction s as [|c s IH]; cbn; [discriminate|].
  destruct (Ascii.eqb c "/"); [intros H; injection H as <-; lia|].
  destruct (Regex.is_line_terminator c); [discriminate|].
  intros H. specialize (IH H). lia.
Qed.

Lemma colon_slashes_rest_length (s r : string) :
  Regex.colon_slashes_rest s = Some r -> String.length r < String.length s.
Proof.
  unfold Regex.colon_slashes_rest.
  destruct (Str.strip_prefix "://" s) as [s1|] eqn:E; [|discriminate].
  intros H. apply lazy_dots_slash_length in H.
  apply strip_prefix_length in E. lia.
Qed.

Lemma match_here_length (s rest : string) :
  Regex.match_here s = Some rest -> S (String.length rest) <= String.length s.
Proof.
  unfold Regex.match_here.
  destruct (Str.strip_prefix "http" s) as [r|] eqn:E; [|discriminate].
  apply strip_prefix_length in E. cbn in E.
  destruct (Str.strip_prefix "s" r) as [r1|] eqn:E1.
  - apply strip_prefix_length in E1.
    destruct (Regex.colon_slashes_rest r1) eqn:E2.
    + intros H. injection H as <-. apply colon_slashes_rest_length in E2. lia.
    + intros H. apply colon_slashes_rest_length in H. lia.
  - intros H. apply colon_slashes_rest_length in H. lia.
Qed.

Lemma relativePath_length (u : string) :
  String.length (relativePath u) <= String.length u.
Proof.
  unfold relativePath. induction u as [|c u IH]; [cbn; lia|].
  rewrite replace_scheme_host_eq.
  destruct (Regex.match_here (String c u)) eqn:E.
  - apply match_here_length in E. cbn [String.length] in *. lia.
  - cbn [String.length]. lia.
Qed.

End TruncateBound.

(** X13.  The truncated URL is never longer than 103 characters, for any
    URL; replacing scheme and host never lengthens a URL; and the result
    is empty only for the empty URL. *)
Theorem truncateUrl_bounded (u : string) :
  String.length (truncateUrl u) <= 103
  /\ String.length (relativePath u) <= String.length u
  /\ (truncateUrl u = "" <-> u = "").
Proof.
  split; [|split].
  - destruct (Nat.le_gt_cases
                (String.length (relativePath u ++ relativePath u)) 100) as [H | H].
    + rewrite truncateUrl_short by exact H. lia.
    + rewrite truncateUrl_long by exact H.
      rewrite append_length, substr0_length by lia. cbn. lia.
  - apply relativePath_length.
  - split; [|intros ->; reflexivity].
    intros H.
    assert (Hlen : String.length (truncateUrl u) = 0) by now rewrite H.
    destruct (Nat.le_gt_cases
                (String.length (relativePath u ++ relativePath u)) 100) as [H1 | H1].
    + rewrite truncateUrl_short, append_length in Hlen by exact H1.
      assert (Hr : String.length (relativePath u) = 0) by lia.
      unfold relativePath in Hr. rewrite replace_scheme_host_eq in Hr.
      destruct (Regex.match_here u); [discriminate Hr|].
      destruct u; [reflexivity | discriminate Hr].
    + rewrite truncateUrl_long, append_length, substr0_length in Hlen by lia.
      discriminate Hlen.
Qed.

(** ** The cache *)

Section CacheFacts.

Lemma load_after_save (s : Cacher.Store) (t0 t : Z) (k : string) (d : JsVal)
  (maxAge : option Z) :
  Cacher.load (Cacher.save s t0 k d) t k maxAge
  = if match maxAge with None => true | Some m => (t - t0 <=? m)%Z end
    then d else JNull.
Proof.
  unfold Cacher.load, Cacher.read, Cacher.save. cbn [Cacher.find Cacher.key].
  rewrite String.eqb_refl. unfold Cacher.fresh. cbn [Cacher.storedAt].
  destruct maxAge as [m|]; [destruct (t - t0 <=? m)%Z|]; reflexivity.
Qed.

Lemma send_fulfilled_store (o : RequestOptions) (r : AxiosResponse) (w : World) :
  Js.truthy (cachedData o w) = false -> cache o = Some true ->
  cacheStore (fst (fst (send o (Fulfilled r) w)))
  = Cacher.save (cacheStore w) (now w) (url o) (res_data r)
  /\ now (fst (fst (send o (Fulfilled r) w))) = now w.
Proof.
  intros Hc Hcache.
  destruct (send_sync_miss o w Hc) as [w1 [cfg [Hs [_ [_ [_ [Hst [Hnow _]]]]]]]].
  unfold send. rewrite Hs. cbn [settle]. unfold on_fulfilled.
  rewrite Hcache. cbn [Js.flag fst snd cacheStore set_cacheStore now].
  now rewrite Hst, Hnow.
Qed.

End CacheFacts.

(** X14.  With the cache of the specification: after a call with
    [cache: true] was fulfilled by the transport, a later call with
    [cache: true] for the same URL is answered from the cache with the
    payload of that response, without reaching the transport, provided
    the payload is truthy and the time elapsed is within [cacheFor] (or
    [cacheFor] is absent).  When more than [cacheFor] has elapsed, or the
    payload is falsy, the later call goes to the transport. *)
Theorem cached_answer_round_trip (o o2 : RequestOptions) (r : AxiosResponse)
  (w : World) (t : Z) :
  cache o = Some true -> Js.truthy (cachedData o w) = false ->
  cache o2 = Some true -> url o2 = url o ->
  let w1 := fst (fst (send o (Fulfilled r) w)) in
  let w2 := fst (step (EnvClock t) w1) in
  (Js.truthy (res_data r) = true ->
   match cacheFor o2 with None => True | Some m => (t - now w <= m)%Z end ->
   send_sync o2 w2 = (w2, [], Immediate (JObj [("data", res_data r)])))
  /\ (forall m, cacheFor o2 = Some m -> (m < t - now w)%Z ->
                exists cfg, snd (send_sync o2 w2) = Pending cfg)
  /\ (Js.truthy (res_data r) = false ->
      exists cfg, snd (send_sync o2 w2) = Pending cfg).
Proof.
  intros Hcache Hc Hcache2 Hurl w1 w2.
  destruct (send_fulfilled_store o r w Hc Hcache) as [Hst Hnow].
  assert (Hdata : cachedData o2 w2
                  = if match cacheFor o2 with
                       | None => true
                       | Some m => (t - now w <=? m)%Z
                       end
                    then res_data r else JNull).
  { unfold cachedData. rewrite Hcache2. cbn [Js.flag].
    unfold w2. cbn [step fst cacheStore now]. fold w1.
    unfold w1. rewrite Hst, Hurl. apply load_after_save. }
  assert (Hmiss : Js.truthy (cachedData o2 w2) = false ->
                  exists cfg, snd (send_sync o2 w2) = Pending cfg).
  { intros H. destruct (send_sync_miss o2 w2 H) as [w3 [cfg [Hs _]]].
    exists cfg. now rewrite Hs. }
  split; [|split].
  - intros Ht Hage.
    assert (E : cachedData o2 w2 = res_data r).
    { rewrite Hdata. destruct (cacheFor o2) as [m|]; [|reflexivity].
      destruct (Z.leb_spec (t - now w) m); [reflexivity | lia]. }
    rewrite send_sync_hit by (rewrite E; exact Ht). now rewrite E.
  - intros m Hm Hstale. apply Hmiss. rewrite Hdata, Hm.
    destruct (Z.leb_spec (t - now w) m); [lia | reflexivity].
  - intros Hf. apply Hmiss. rewrite Hdata.
    destruct (match cacheFor o2 with
              | None => true
              | Some m => (t - now w <=? m)%Z
              end); [exact Hf | reflexivity].
Qed.

Lemma cached_answer_round_trip_witness :
  let o := poll "/x" "grp1" (Some true) (Some 5000%Z) in
  let w1 := fst (fst (send o (Fulfilled (ok_response endpoints)) (boot home 0 []))) in
  send_sync o (fst (step (EnvClock 3000) w1))
  = (fst (step (EnvClock 3000) w1), [], Immediate (JObj [("data", endpoints)]))
  /\ exists cfg, snd (send_sync o (fst (step (EnvClock 6000) w1))) = Pending cfg.
Proof.
  intros o w1. split.
  - refine (proj1 (cached_answer_round_trip o o (ok_response endpoints)
                     (boot home 0 []) 3000 eq_refl eq_refl eq_refl eq_refl)
              eq_refl _).
    cbn. lia.
  - refine (proj1 (proj2 (cached_answer_round_trip o o (ok_response endpoints)
                            (boot home 0 []) 6000 eq_refl eq_refl eq_refl eq_refl))
              5000%Z eq_refl _).
    cbn. lia.
Defined.

(** * Properties of the callers in MigrationSource.ts *)

Section Callers.

Lemma settle_no_network_call (o : RequestOptions) (cfg : AxiosRequestConfig)
  (outcome : TransportOutcome) (w : World) :
  network_calls (events_of (settle o cfg outcome w)) = [].
Proof.
  destruct outcome as [r | e]; cbn [settle].
  - unfold on_fulfilled, events_of. cbn [fst snd].
    destruct (negb (Js.flag (skipLog o))); reflexivity.
  - unfold on_rejected, events_of.
    destruct (err_response e), (err_request e);
      try destruct (err_constructor_name e =? "Cancel"); cbn [fst snd];
      rewrite ?network_calls_app;
      repeat (destruct (_ && _)); try destruct (redirect _ _); reflexivity.
Qed.

(** [send] for the options the callers build: no cache, no [cancelId],
    logging. *)
Lemma send_request (u m : string) (d : JsVal) (outcome : TransportOutcome)
  (w : World) :
  let o := MigrationSource.request u m d in
  let cfg := build_axiosOptions o in
  send o outcome w
  = (fst (fst (settle o cfg outcome w)),
     (EvLog (log_entry cfg REQUEST None None None) :: EvAxios cfg
        :: events_of (settle o cfg outcome w)),
     result_of (settle o cfg outcome w)).
Proof.
  intros o cfg. unfold send.
  rewrite (send_sync_miss_plain o w eq_refl eq_refl).
  fold cfg. unfold events_of, result_of.
  destruct (settle o cfg outcome w) as [[w2 ev2] res]. reflexivity.
Qed.

Lemma send_sync_request (u m : string) (d : JsVal) (w : World) :
  let cfg := build_axiosOptions (MigrationSource.request u m d) in
  send_sync (MigrationSource.request u m d) w
  = (w, [EvLog (log_entry cfg REQUEST None None None); EvAxios cfg], Pending cfg).
Proof.
  exact (send_sync_miss_plain (MigrationSource.request u m d) w eq_refl eq_refl).
Qed.

Lemma lookup_assign (k k' : string) (v : JsVal) (f : list (string * JsVal)) :
  Js.lookup k' (JsObject.assign k v f)
  = if k =? k' then v else Js.lookup k' f.
Proof.
  induction f as [|[k0 v0] f IH]; cbn; [reflexivity|].
  destruct (String.eqb_spec k0 k) as [-> | Hne]; cbn.
  - destruct (k =? k'); reflexivity.
  - rewrite IH. destruct (String.eqb_spec k0 k') as [-> | Hne'];
      [|reflexivity].
    destruct (String.eqb_spec k k'); [congruence | reflexivity].
Qed.

Lemma options_assigned (options : list MigrationSource.Field)
  (f : list (string * JsVal)) :
  exists f',
    fold_left
      (fun m o => JsObject.put m (MigrationSource.name o)
                    (MigrationSource.option_value o))
      options (JObj f) = JObj f'
    /\ (forall k,
           k = "__proto__"
           \/ (forall o, In o options -> MigrationSource.name o <> k) ->
           Js.lookup k f' = Js.lookup k f)
    /\ (NoDup (map MigrationSource.name options) ->
        forall o, In o options ->
                  MigrationSource.name o <> "__proto__" ->
                  Js.lookup (MigrationSource.name o) f'
                  = MigrationSource.option_value o).
Proof.
  revert f. induction options as [|o1 rest IH]; intros f; cbn [fold_left].
  - exists f. repeat split. intros _ o [].
  - unfold JsObject.put at 2.
    destruct (String.eqb_spec (MigrationSource.name o1) "__proto__") as [E1 | N1].
    + destruct (IH f) as [f' [Hf [Hother Hset]]].
      exists f'. split; [exact Hf | split].
      * intros k [-> | Hk]; apply Hother; [now left | right].
        intros o Ho. apply Hk. now right.
      * intros Hnd o Ho Hname. cbn [map] in Hnd.
        inversion Hnd as [|? ? Hnot Hnd']; subst.
        destruct Ho as [<- | Ho]; [contradiction | now apply Hset].
    + cbn [JsObject.set].
      destruct (IH (JsObject.assign (MigrationSource.name o1)
                      (MigrationSource.option_value o1) f))
        as [f' [Hf [Hother Hset]]].
      exists f'. split; [exact Hf | split].
      * intros k Hk.
        assert (Hne : MigrationSource.name o1 <> k).
        { destruct Hk as [-> | Hk]; [exact N1 | apply Hk; now left]. }
        rewrite Hother.
        -- rewrite lookup_assign.
           destruct (String.eqb_spec (MigrationSource.name o1) k);
             [contradiction | reflexivity].
        -- destruct Hk as [-> | Hk]; [now left | right].
           intros o Ho. apply Hk. now right.
      * intros Hnd o Ho Hname. cbn [map] in Hnd.
        inversion Hnd as [|? ? Hnot Hnd']; subst.
        destruct Ho as [<- | Ho]; [|now apply Hset].
        rewrite Hother.
        -- rewrite lookup_assign, String.eqb_refl. reflexivity.
        -- right. intros o Ho E. apply Hnot. rewrite <- E. now apply in_map.
Qed.

End Callers.

(** X15.  [cancel] and [delete] of a migration.  Each calls the
    transport once: [cancel] with a POST to
    [<base>/<project>/migrations/<id>/actions] whose body is
    [{ cancel: null }], or [{ cancel: { force: true } }] when [force] is
    true; [delete] with a DELETE to [<base>/<project>/migrations/<id>]
    and a null body.  When the transport fulfils the call the result is
    the id that was passed in, whatever the response holds; otherwise the
    promise settles as that of [send].  Neither call is registered as
    cancelable nor touches the cache.  Without a [projectId] cookie the
    project in the URL is the text [undefined]. *)
Theorem cancel_and_delete_migration (env : Env) (id : string) (w : World) :
  let base := coriolis env ++ "/" ++ projectId (cookies env) ++ "/migrations/" ++ id in
  let call u m d :=
    EvAxios {| cfg_url := u; cfg_method := m; cfg_headers := []; cfg_data := d;
               cfg_responseType := json; cfg_cancelToken := None |} in
  (forall force outcome,
      network_calls (events_of (MigrationSource.cancel env id force outcome w))
      = [call (base ++ "/actions") "POST"
           (JObj [("cancel",
                   if Js.flag force then JObj [("force", JBool true)] else JNull)])]
      /\ cancelables (fst (fst (MigrationSource.cancel env id force outcome w)))
         = cancelables w
      /\ result_of (MigrationSource.cancel env id force outcome w)
         = match outcome with
           | Fulfilled _ => Resolved (JStr id)
           | Failed e =>
               result_of (settle (MigrationSource.cancel_options env id force)
                            (build_axiosOptions
                               (MigrationSource.cancel_options env id force))
                            (Failed e) w)
           end)
  /\ (forall outcome,
         network_calls (events_of (MigrationSource.delete env id outcome w))
         = [call base "DELETE" JNull]
         /\ cancelables (fst (fst (MigrationSource.delete env id outcome w)))
            = cancelables w
         /\ cacheStore (fst (fst (MigrationSource.delete env id outcome w)))
            = cacheStore w
         /\ result_of (MigrationSource.delete env id outcome w)
            = match outcome with
              | Fulfilled _ => Resolved (JStr id)
              | Failed e =>
                  result_of (settle (MigrationSource.delete_options env id)
                               (build_axiosOptions
                                  (MigrationSource.delete_options env id))
                               (Failed e) w)
              end)
  /\ (Cookie.get "projectId" (cookies env) = None ->
      base = coriolis env ++ "/undefined/migrations/" ++ id).
Proof.
  intros base call.
  assert (Hbase : forall s,
             MigrationSource.migrations_url env ++ "/" ++ id ++ s = base ++ s).
  { intros s. unfold base, MigrationSource.migrations_url.
    rewrite !append_assoc. reflexivity. }
  split; [|split].
  - intros force outcome. unfold MigrationSource.cancel, MigrationSource.cancel_options.
    rewrite send_request. cbv zeta. rewrite Hbase.
    set (o := MigrationSource.request _ _ _).
    pose proof (settle_no_network_call o (build_axiosOptions o) outcome w) as Hn.
    pose proof (settle_buffer o (build_axiosOptions o) outcome w) as [Hb _].
    unfold events_of, result_of in *. cbn [fst snd].
    unfold network_calls in *. cbn [filter is_axios]. rewrite Hn.
    split; [|split; [exact Hb|]].
    + unfold call, o. destruct (Js.flag force); reflexivity.
    + destruct outcome as [r | e]; [reflexivity|].
      cbn [settle]. unfold on_rejected.
      destruct (err_response e), (err_request e);
        try destruct (err_constructor_name e =? "Cancel"); reflexivity.
  - intros outcome. unfold MigrationSource.delete, MigrationSource.delete_options.
    rewrite send_request. cbv zeta.
    assert (Hb0 : MigrationSource.migrations_url env ++ "/" ++ id = base).
    { unfold base, MigrationSource.migrations_url.
      rewrite !append_assoc. reflexivity. }
    rewrite Hb0.
    set (o := MigrationSource.request _ _ _).
    pose proof (settle_no_network_call o (build_axiosOptions o) outcome w) as Hn.
    pose proof (settle_buffer o (build_axiosOptions o) outcome w) as [Hb _].
    unfold events_of, result_of in *. cbn [fst snd].
    unfold network_calls in *. cbn [filter is_axios]. rewrite Hn.
    split; [reflexivity | split; [exact Hb | split]].
    + destruct outcome as [r | e]; cbn [settle].
      * reflexivity.
      * now rewrite on_rejected_world.
    + destruct outcome as [r | e]; [reflexivity|].
      cbn [settle]. unfold on_rejected.
      destruct (err_response e), (err_request e);
        try destruct (err_constructor_name e =? "Cancel"); reflexivity.
  - intros Hcookie. unfold base, projectId. rewrite Hcookie. reflexivity.
Qed.

Lemma cancel_and_delete_migration_witness :
  let env := {| coriolis := "http://host/coriolis"; cookies := [] |} in
  coriolis env ++ "/" ++ projectId (cookies env) ++ "/migrations/" ++ "m1"
  = coriolis env ++ "/undefined/migrations/" ++ "m1".
Proof.
  intros env.
  exact (proj2 (proj2 (cancel_and_delete_migration env "m1" (at_location home)))
           eq_refl).
Defined.

(** X16.  The payload of [recreateFullCopy].  The seven copied fields
    are those of the migration.  [replication_count] is that of the
    migration when it is truthy and 2 otherwise, so it is never [0] or
    missing; [shutdown_instances] is always a boolean;
    [skip_os_morphing] is carried over whenever it is not null or
    undefined, so that [false] is kept, and [source_environment] only
    when it is truthy.  The payload is what the transport receives as
    the body of a POST. *)
Theorem recreateFullCopy_payload_fields (migration : JsVal) :
  let p := Js.get (MigrationSource.recreateFullCopy_payload migration) "migration" in
  (forall k,
      In k ["origin_endpoint_id"; "destination_endpoint_id";
            "destination_environment"; "network_map"; "instances";
            "storage_mappings"; "notes"] ->
      Js.get p k = Js.get migration k)
  /\ Js.get p "replication_count"
     = (if Js.truthy (Js.get migration "replication_count")
        then Js.get migration "replication_count" else JNum 2)
  /\ Js.truthy (Js.get p "replication_count") = true
  /\ Js.get p "shutdown_instances"
     = JBool (Js.truthy (Js.get migration "shutdown_instances"))
  /\ Js.get p "skip_os_morphing"
     = (if JsObject.nullish (Js.get migration "skip_os_morphing")
        then JUndefined else Js.get migration "skip_os_morphing")
  /\ Js.get p "source_environment"
     = (if Js.truthy (Js.get migration "source_environment")
        then Js.get migration "source_environment" else JUndefined)
  /\ (forall env w,
         exists cfg,
           snd (send_sync (MigrationSource.recreateFullCopy_options env migration) w)
           = Pending cfg
           /\ cfg_method cfg = "POST"
           /\ cfg_data cfg = MigrationSource.recreateFullCopy_payload migration).
Proof.
  intros p. unfold p, MigrationSource.recreateFullCopy_payload.
  assert (Hrc : Js.truthy (Js.or (Js.get migration "replication_count") (JNum 2))
                = true).
  { unfold Js.or.
    destruct (Js.truthy (Js.get migration "replication_count")) eqn:E;
      [exact E | reflexivity]. }
  split; [|split; [|split; [|split; [|split; [|split]]]]].
  - intros k Hk. cbn in Hk.
    destruct (JsObject.nullish (Js.get migration "skip_os_morphing"));
      destruct (Js.truthy (Js.get migration "source_environment"));
      repeat (destruct Hk as [<- | Hk]; [reflexivity|]); contradiction.
  - destruct (JsObject.nullish (Js.get migration "skip_os_morphing"));
      destruct (Js.truthy (Js.get migration "source_environment")); reflexivity.
  - destruct (JsObject.nullish (Js.get migration "skip_os_morphing"));
      destruct (Js.truthy (Js.get migration "source_environment")); exact Hrc.
  - destruct (JsObject.nullish (Js.get migration "skip_os_morphing"));
      destruct (Js.truthy (Js.get migration "source_environment")); reflexivity.
  - destruct (JsObject.nullish (Js.get migration "skip_os_morphing"));
      destruct (Js.truthy (Js.get migration "source_environment")); reflexivity.
  - destruct (JsObject.nullish (Js.get migration "skip_os_morphing"));
      destruct (Js.truthy (Js.get migration "source_environment")) eqn:E;
      reflexivity.
  - intros env w. unfold MigrationSource.recreateFullCopy_options.
    rewrite send_sync_request. cbn [snd].
    eexists. split; [reflexivity | split; reflexivity].
Qed.

Lemma recreateFullCopy_payload_fields_witness :
  let p := Js.get (MigrationSource.recreateFullCopy_payload finished_migration)
             "migration" in
  Js.get p "instances" = JArr [JStr "vm1"]
  /\ Js.get p "replication_count" = JNum 2
  /\ Js.get p "skip_os_morphing" = JBool false
  /\ Js.get p "shutdown_instances" = JBool false.
Proof.
  intros p.
  destruct (recreateFullCopy_payload_fields finished_migration)
    as [Hcopy [Hrc [_ [Hshut [Hskip _]]]]].
  split; [|split; [|split]].
  - apply (Hcopy "instances"). cbn. tauto.
  - exact Hrc.
  - exact Hskip.
  - exact Hshut.
Defined.

(** X17.  The payload of [migrateReplica], for options with pairwise
    different names.  Every option whose name is not [__proto__] is sent
    under its name with its value when that is truthy, otherwise with
    its default when that is truthy, otherwise with [false]: a value
    that was set to [false], [0] or the empty string is replaced by a
    truthy default.  An option named [__proto__] is not sent: the payload
    never holds that key.  [replica_id] is the id passed in unless an
    option bears that name, and [user_scripts] is present exactly when
    scripts were uploaded. *)
Theorem migrateReplica_option_values (getUserScripts : list JsVal -> JsVal)
  (replicaId : string) (options : list MigrationSource.Field)
  (userScripts : list JsVal) :
  NoDup (map MigrationSource.name options) ->
  let m :=
    Js.get (MigrationSource.migrateReplica_payload getUserScripts replicaId
              options userScripts) "migration" in
  (forall o,
      In o options ->
      MigrationSource.name o <> "__proto__" ->
      MigrationSource.name o <> "user_scripts" \/ userScripts = [] ->
      Js.get m (MigrationSource.name o)
      = (if Js.truthy (MigrationSource.value o) then MigrationSource.value o
         else if Js.truthy (MigrationSource.default o)
              then MigrationSource.default o
              else JBool false))
  /\ Js.get m "__proto__" = JUndefined
  /\ ((forall o, In o options -> MigrationSource.name o <> "replica_id") ->
      Js.get m "replica_id" = JStr replicaId)
  /\ (userScripts <> [] -> Js.get m "user_scripts" = getUserScripts userScripts)
  /\ (userScripts = [] ->
      (forall o, In o options -> MigrationSource.name o <> "user_scripts") ->
      Js.get m "user_scripts" = JUndefined).
Proof.
  intros Hnd m. unfold m, MigrationSource.migrateReplica_payload.
  destruct (options_assigned options [("replica_id", JStr replicaId)])
    as [f' [Hf [Hother Hset]]].
  rewrite Hf. specialize (Hset Hnd).
  assert (Hov : forall o,
             MigrationSource.option_value o
             = (if Js.truthy (MigrationSource.value o) then MigrationSource.value o
                else if Js.truthy (MigrationSource.default o)
                     then MigrationSource.default o
                     else JBool false)).
  { intros o. unfold MigrationSource.option_value, Js.or.
    destruct (Js.truthy (MigrationSource.value o)) eqn:Ev; rewrite ?Ev;
      [reflexivity|].
    destruct (Js.truthy (MigrationSource.default o)) eqn:Ed; rewrite ?Ed;
      reflexivity. }
  assert (Hproto : Js.lookup "__proto__" f' = JUndefined).
  { rewrite Hother by now left. reflexivity. }
  destruct userScripts as [|s0 rest]; cbn [List.length Nat.eqb negb].
  - cbn. split; [|split; [|split; [|split]]].
    + intros o Ho Hp _. rewrite Hset by assumption. apply Hov.
    + exact Hproto.
    + intros Hno. rewrite Hother by now right. reflexivity.
    + intros H. now elim H.
    + intros _ Hno. rewrite Hother by now right. reflexivity.
  - cbn. split; [|split; [|split; [|split]]].
    + intros o Ho Hp [Hname | Habs]; [|discriminate Habs].
      rewrite lookup_assign.
      destruct (String.eqb_spec "user_scripts" (MigrationSource.name o));
        [congruence|].
      rewrite Hset by assumption. apply Hov.
    + rewrite lookup_assign. exact Hproto.
    + intros Hno. rewrite lookup_assign. cbn. rewrite Hother by now right.
      reflexivity.
    + intros _. rewrite lookup_assign. reflexivity.
    + intros H. discriminate H.
Qed.

Lemma migrateReplica_option_values_witness :
  let options :=
    [{| MigrationSource.name := "shutdown_instances";
        MigrationSource.value := JBool false;
        MigrationSource.default := JBool true |};
     {| MigrationSource.name := "__proto__";
        MigrationSource.value := JStr "x";
        MigrationSource.default := JNull |};
     {| MigrationSource.name := "clone_disks";
        MigrationSource.value := JUndefined;
        MigrationSource.default := JNull |}] in
  let m :=
    Js.get (MigrationSource.migrateReplica_payload (fun l => JArr l) "r1" options [])
      "migration" in
  Js.get m "shutdown_instances" = JBool true
  /\ Js.get m "clone_disks" = JBool false
  /\ Js.get m "__proto__" = JUndefined
  /\ Js.keys m = ["replica_id"; "shutdown_instances"; "clone_disks"]
  /\ Js.get m "replica_id" = JStr "r1".
Proof.
  intros options m.
  assert (Hnd : NoDup (map MigrationSource.name options)).
  { repeat constructor; cbn; intuition discriminate. }
  destruct (migrateReplica_option_values (fun l => JArr l) "r1" options [] Hnd)
    as [Hopt [Hproto [Hid _]]].
  split; [|split; [|split; [|split]]].
  - refine (Hopt {| MigrationSource.name := "shutdown_instances";
                    MigrationSource.value := JBool false;
                    MigrationSource.default := JBool true |} _ _ _);
      [now left | discriminate | now right].
  - refine (Hopt {| MigrationSource.name := "clone_disks";
                    MigrationSource.value := JUndefined;
                    MigrationSource.default := JNull |} _ _ _);
      [right; right; now left | discriminate | now right].
  - exact Hproto.
  - reflexivity.
  - apply Hid. intros o [<- | [<- | [<- | []]]]; discriminate.
Defined.

Lemma truncateUrl_bounded_witness : truncateUrl "" = "".
Proof. exact (proj2 (proj2 (proj2 (truncateUrl_bounded ""))) eq_refl). Defined.
